(** * The projection and reference-data services of [backend/]

    A shallow embedding of [backend/tsne_service.py] and
    [backend/reference_data.py].  JSON bodies and CSV cells are Python
    values, Python floats are IEEE binary64 numbers ([spec_float]), the
    module-level dictionary [tsne_cache] is a finite map threaded through
    the handler together with the state of NumPy's global generator, and
    exceptions are explicit results.  A string is the UTF-8 text of a
    Python [str].  The library routines the handlers call
    (string-to-float parsing, [repr], [np.random.choice],
    [TSNE.fit_transform], [print] on the standard output) and the file
    system are parameters. *)

From Stdlib Require Import ZArith String List SpecFloat Ascii Lia.
From stdpp Require Import gmap strings list fin_maps pretty.

#[local] Set Warnings "-register-all".
#[local] Open Scope string_scope.
#[local] Open Scope Z_scope.

(** * Python values, exceptions and builtins *)
Module Py.

(** What [json.loads] and [DataFrame.to_dict] can produce. *)
Inductive pyvalue :=
| PNone
| PBool (b : bool)
| PInt (z : Z)
| PFloat (f : spec_float)
| PStr (s : string)
| PList (l : list pyvalue)
| PDict (d : gmap string pyvalue).

(** The exceptions that occur in the handlers; the argument is [str(e)]. *)
Inductive exn :=
| AttributeError (msg : string)
| TypeError (msg : string)
| ValueError (msg : string)
| OverflowError (msg : string)
| IndexError (msg : string)
| FileNotFoundError (msg : string)
| UnicodeEncodeError (msg : string)
| OtherError (msg : string).

Definition exn_str (e : exn) : string :=
  match e with
  | AttributeError m | TypeError m | ValueError m | OverflowError m
  | IndexError m | FileNotFoundError m | UnicodeEncodeError m | OtherError m => m
  end.

Inductive result (A : Type) :=
| Ok (a : A)
| Raise (e : exn).
Arguments Ok {A} a.
Arguments Raise {A} e.

Definition rbind {A B} (r : result A) (k : A -> result B) : result B :=
  match r with
  | Ok a => k a
  | Raise e => Raise e
  end.

(** [type(v).__name__] *)
Definition type_name (v : pyvalue) : string :=
  match v with
  | PNone => "NoneType"
  | PBool _ => "bool"
  | PInt _ => "int"
  | PFloat _ => "float"
  | PStr _ => "str"
  | PList _ => "list"
  | PDict _ => "dict"
  end.

(** [v.get(key, dflt)]: only dictionaries have the method. *)
Definition py_get (v : pyvalue) (key : string) (dflt : pyvalue) : result pyvalue :=
  match v with
  | PDict d => Ok (default dflt (d !! key))
  | _ => Raise (AttributeError
                  ("'" +:+ type_name v +:+ "' object has no attribute 'get'"))
  end.

(** binary64 *)
Definition prec : Z := 53.
Definition emax : Z := 1024.

Definition float_zero : spec_float := S754_zero false.
Definition float_max : spec_float := SFmax_float prec emax.

(** The integer [n] rounded to nearest-even; an infinity when it is out
    of range. *)
Definition float_of_Z (n : Z) : spec_float := binary_normalize prec emax n 0 false.

Definition is_finite (f : spec_float) : bool :=
  match f with
  | S754_zero _ | S754_finite _ _ _ => true
  | S754_infinity _ | S754_nan => false
  end.

(** The builtin [float(v)].  [float_of_string s] is the parse of a
    string, [None] when Python raises ValueError. *)
Definition py_float (float_of_string : string -> option spec_float)
    (v : pyvalue) : result spec_float :=
  match v with
  | PNone | PList _ | PDict _ =>
      Raise (TypeError
               ("float() argument must be a string or a real number, not '"
                  +:+ type_name v +:+ "'"))
  | PBool b => Ok (float_of_Z (if b then 1 else 0))
  | PInt z =>
      if is_finite (float_of_Z z) then Ok (float_of_Z z)
      else Raise (OverflowError "int too large to convert to float")
  | PFloat f => Ok f
  | PStr s =>
      match float_of_string s with
      | Some f => Ok f
      | None => Raise (ValueError ("could not convert string to float: " +:+ s))
      end
  end.

(** [str(v)], as an f-string formats a value.  The text of a float and
    of a container is [repr]'s, a library routine. *)
Definition py_str (repr : pyvalue -> string) (v : pyvalue) : string :=
  match v with
  | PNone => "None"
  | PBool true => "True"
  | PBool false => "False"
  | PInt z => pretty z
  | PStr s => s
  | PFloat _ | PList _ | PDict _ => repr v
  end.

(** [str.lower()] on a text of ASCII characters: the letters A to Z are
    folded.  On other text [str.lower()] folds more (the letters of
    other alphabets), which this definition leaves as they are. *)
Definition lower_ascii (c : ascii) : ascii :=
  let n := nat_of_ascii c in
  if ((65 <=? n) && (n <=? 90))%nat then ascii_of_nat (n + 32) else c.

Fixpoint lower (s : string) : string :=
  match s with
  | EmptyString => EmptyString
  | String c s' => String (lower_ascii c) (lower s')
  end.

(** [sub in s] *)
Fixpoint contains (sub s : string) : bool :=
  String.prefix sub s ||
  match s with
  | EmptyString => false
  | String _ s' => contains sub s'
  end.

(** [s.endswith(suffix)] *)
Definition endswith (s suffix : string) : bool :=
  let n := String.length s in
  let k := String.length suffix in
  (k <=? n)%nat && String.eqb (String.substring (n - k) k s) suffix.

(** Truth value of an optional string: [None] and [''] are false. *)
Definition truthy (o : option string) : bool :=
  match o with
  | Some s => negb (String.eqb s "")
  | None => false
  end.

End Py.
Export Py.

Abbreviation record := (gmap string pyvalue).
Abbreviation matrix := (list (list spec_float)).

(** * NumPy array operations used by the handler *)
Module Np.

(** [np.nan_to_num] on one entry: NaN becomes zero, an infinity the
    largest finite number of its sign. *)
Definition nan_to_num1 (f : spec_float) : spec_float :=
  match f with
  | S754_nan => float_zero
  | S754_infinity false => float_max
  | S754_infinity true => SFopp float_max
  | _ => f
  end.

Definition nan_to_num (X : matrix) : matrix := map (map nan_to_num1) X.

(** [X[indices]]: rows picked by an index array; an index past the end
    raises. *)
Fixpoint take_rows (X : matrix) (indices : list nat) : result matrix :=
  match indices with
  | [] => Ok []
  | i :: rest =>
      match X !! i with
      | Some row => rbind (take_rows X rest) (fun rows => Ok (row :: rows))
      | None => Raise (IndexError "index out of bounds")
      end
  end.

End Np.

(** * External routines and the file system *)

(** The arguments of [np.random.choice(a, size, replace=..., p=...)];
    [p = None] is the uniform distribution. *)
Record ChoiceCall := {
  choice_a : Z;
  choice_size : Z;
  choice_replace : bool;
  choice_p : option (list spec_float)
}.

(** The arguments of the [TSNE(...)] constructor. *)
Record TSNEParams := {
  n_components : Z;
  perplexity : Z;
  random_state : Z;
  n_iter : Z
}.

(** The library routines.  [random_choice] reads and advances the state
    of the global generator, which nothing in the repository seeds.
    [stdout_print text] is [print(text)] on the standard output of the
    process: it raises UnicodeEncodeError for a text the encoding of the
    output cannot encode. *)
Record Lib := {
  float_of_string : string -> option spec_float;
  repr : pyvalue -> string;
  random_choice : N -> ChoiceCall -> result (list nat) * N;
  fit_transform : TSNEParams -> matrix -> result matrix;
  stdout_print : string -> result unit
}.

(** The files the projection service sees: [os.path.exists] and
    [pd.read_csv(path).to_dict('records')]. *)
Record World := {
  path_exists : string -> bool;
  read_csv : string -> result (list record)
}.

(** The calls to library routines a request makes, in order. *)
Inductive event :=
| EvChoice (c : ChoiceCall)
| EvTSNE (p : TSNEParams) (X : matrix).

(** * [tsne_service.py] *)

(** The dictionary [response] of [generate_tsne], also the cache's value. *)
Record tsne_response := {
  coordinates : matrix;
  recordId : pyvalue
}.

Inductive payload :=
| JCoordinates (r : tsne_response)
| JRecords (rows : list record)
| JError (msg : string).

Record http_response := {
  status : Z;
  body : payload
}.

(** [jsonify(x)] alone is status 200. *)
Definition jsonify (b : payload) : http_response := {| status := 200; body := b |}.

(** Process state: the module-level [tsne_cache], NumPy's generator, and
    the record of library calls made so far. *)
Record state := {
  tsne_cache : gmap string tsne_response;
  rng : N;
  trace : list event
}.

Definition initial_state (seed : N) : state :=
  {| tsne_cache := ∅; rng := seed; trace := [] |}.

(** State and exceptions: a raised exception keeps the state reached. *)
Definition M (A : Type) : Type := state -> result A * state.

Definition ret {A} (a : A) : M A := fun s => (Ok a, s).

Definition bind {A B} (m : M A) (k : A -> M B) : M B :=
  fun s => match m s with
           | (Ok a, s') => k a s'
           | (Raise e, s') => (Raise e, s')
           end.

Definition lift {A} (r : result A) : M A := fun s => (r, s).

#[global] Instance result_ret : MRet result := fun A a => Ok a.
#[global] Instance result_bind : MBind result := fun A B k r => rbind r k.
#[global] Instance M_ret : MRet M := fun A a => ret a.
#[global] Instance M_bind : MBind M := fun A B k m => bind m k.

Definition cache_store (key : string) (r : tsne_response) : M unit :=
  fun s => (Ok tt, {| tsne_cache := <[key := r]> (tsne_cache s); rng := rng s;
                      trace := trace s |}).

Definition cache_lookup (key : string) : M (option tsne_response) :=
  fun s => (Ok (tsne_cache s !! key), s).

Definition feature_map : gmap string (list string) :=
  {[ "Baltimore" :=
     [ "PTR_SEQUENCE_NUM"; "CREAT_DON"; "DAYSQAIT_ALLOC"; "time_on_analysis"; "KDPI";
       "AGE_DON"; "HGT_CM_CALC"; "MICRO_FAT_LI_DON"; "BUN_DON"; "DIURETICS_N";
       "KIL_BACK_TBL_FLUSH"; "INIT_EPTS"; "DAYSWAIT_CHRON"; "NUM_ORG_DISC"; "END_CPRA";
       "PO2_DON"; "KIP_REASON_CD"; "time_since_gfr_less_than_20"; "REGION_IDENTICAL";
       "LENGTH_LEFT_LUNG" ];
     "Boston" :=
     [ "PTR_SEQUENCE_NUM"; "time_on_dialysis"; "DAYSWAIT_ALLOC"; "KDPI"; "PUMP_KI_N";
       "KIR_FINAL_FLUSH"; "KIR_REASON_CD"; "time_since_gfr_less_than_20"; "DAYSWAIT_CHRON";
       "LENGTH_LEFT_LUNG"; "AGE_DON"; "PO2_DON"; "CREAT_DON"; "WGT_KG_DON_CALC";
       "BMI_DON_CALC"; "INIT_EPTS"; "BUN_DON"; "CREAT_TRR"; "PRI_PAYMENT_TRR_KI";
       "PH_DON" ];
     "LA" :=
     [ "PTR_SEQUENCE_NUM"; "DAYSWAIT_ALLOC"; "time_on_dialysis"; "KDPI"; "KIR_REASON_CD";
       "CREAT_DON"; "CREAT_TRR"; "C1_0"; "NUM_ORG_DISC"; "LENGTH_LEFT_LUNG"; "SEPTAL_WALL";
       "CARDARREST_DOWNTM_DURATION"; "BMI_CALC"; "DAYSWAIT_CHRON"; "SHARE_TY_Local";
       "PH_DON"; "HGT_CM_CALC"; "INIT_EPTS"; "AGE_DON"; "MEETS_DBL_KI_CRITERIA" ] ]}.

Definition get_important_features (city : string) : list string :=
  default [] (feature_map !! city).

Definition city_file_map : gmap string string :=
  {[ "Baltimore" := "data/baltimore_reference.csv";
     "LA" := "data/la_reference.csv";
     "Boston" := "data/boston_reference.csv" ]}.

(** The [try] block of [load_city_data]. *)
Definition load_city_data_try (W : World) (city : string) : result (list record) :=
  let file_path := city_file_map !! city in
  if negb (truthy file_path) then Ok []
  else
    let file_path := default "" file_path in
    if negb (path_exists W file_path) then Ok []
    else rbind (read_csv W file_path) (fun records => Ok records).

(** [load_city_data]: [except Exception] returns the empty list. *)
Definition load_city_data (W : World) (city : string) : result (list record) :=
  match load_city_data_try W city with
  | Ok records => Ok records
  | Raise _ => Ok []
  end.

Section Service.

Variable L : Lib.

(** [float(value)] under [except (ValueError, TypeError): value = 0].
    The integer fallback [0] is the entry [0.0] of the float array that
    [np.array] builds; any other exception leaves the loop. *)
Definition coerce (value : pyvalue) : result spec_float :=
  match py_float (float_of_string L) value with
  | Ok f => Ok f
  | Raise (ValueError _) | Raise (TypeError _) => Ok float_zero
  | Raise e => Raise e
  end.

(** The loop over [features] for the target record. *)
Definition target_features (features : list string) (target_record : pyvalue)
  : result (list spec_float) :=
  mapM (fun feature =>
          value ← py_get target_record feature (PInt 0);
          coerce value) features.

(** The inner loop for one record of the dataset. *)
Definition record_features (features : list string) (record : record)
  : result (list spec_float) :=
  mapM (fun feature => coerce (default (PInt 0) (record !! feature))) features.

(** From [target_features = []] to [X_np = np.nan_to_num(X_np)]. *)
Definition assemble (features : list string) (target_record : pyvalue)
    (city_data : list record) : result matrix :=
  target_features ← target_features features target_record;
  X ← mapM (record_features features) city_data;
  let X_combined := target_features :: X in
  let X_np := X_combined in
  mret (Np.nan_to_num X_np).

Definition np_random_choice (call : ChoiceCall) : M (list nat) :=
  fun s =>
    let '(r, g) := random_choice L (rng s) call in
    (r, {| tsne_cache := tsne_cache s; rng := g;
           trace := trace s ++ [EvChoice call] |}).

Definition max_points : Z := 5000.

(** The block under [if len(X_np) > max_points]. *)
Definition sample (X_np : matrix) : M matrix :=
  let n := Z.of_nat (length X_np) in
  if max_points <? n then
    let call := {| choice_a := n - 1;
                   choice_size := Z.min (max_points - 1) (n - 1);
                   choice_replace := false;
                   choice_p := None |} in
    draws ← np_random_choice call;
    let indices := map S draws in
    let indices := 0%nat :: indices in
    lift (Np.take_rows X_np indices)
  else mret X_np.

Definition tsne_fit_transform (tsne : TSNEParams) (X_np : matrix) : M matrix :=
  fun s =>
    (fit_transform L tsne X_np,
     {| tsne_cache := tsne_cache s; rng := rng s;
        trace := trace s ++ [EvTSNE tsne X_np] |}).

Definition tsne_params (X_np : matrix) : TSNEParams :=
  let perplexity := Z.min 30 (Z.of_nat (length X_np) - 1) in
  {| n_components := 2; perplexity := perplexity;
     random_state := 42; n_iter := 1000 |}.

(** From [perplexity = ...] to [tsne_result.tolist()]. *)
Definition project (X_np : matrix) : M matrix :=
  tsne_result ← tsne_fit_transform (tsne_params X_np) X_np;
  mret tsne_result.

Definition cache_key (city : string) (record_id : pyvalue) : string :=
  city +:+ "_" +:+ py_str (repr L) record_id.

(** The text of [print(f"Generating T-SNE for {city}, record {record_id}")]. *)
Definition generating_line (city : string) (record_id : pyvalue) : string :=
  "Generating T-SNE for " +:+ city +:+ ", record " +:+ py_str (repr L) record_id.

(** The part of [generate_tsne] after the cache lookup missed.  Its
    first [print] is the first to write the city and the identifier of
    a request, and raises when the output cannot encode them.  The other
    [print] calls of the module write counts, paths of the file table,
    the same city and identifier, the messages of exceptions, or, on a
    cache hit, the key of an entry whose identifier was written when the
    entry was stored; they are taken to return. *)
Definition compute_tsne (W : World) (city : string) (target_record record_id : pyvalue)
  : M http_response :=
  _ ← lift (stdout_print L (generating_line city record_id));
  let features := get_important_features city in
  city_data ← lift (load_city_data W city);
  match city_data with
  | [] => mret {| status := 404;
                  body := JError ("No data available for " +:+ city) |}
  | _ :: _ =>
      X_np ← lift (assemble features target_record city_data);
      X_np ← sample X_np;
      tsne_coordinates ← project X_np;
      let response := {| coordinates := tsne_coordinates; recordId := record_id |} in
      _ ← cache_store (cache_key city record_id) response;
      mret (jsonify (JCoordinates response))
  end.

(** The first three statements of the [try] block; [request_json] is
    the value of [request.json] or the exception it raises.  Returns
    [target_record] and [record_id]. *)
Definition read_request (request_json : result pyvalue) : result (pyvalue * pyvalue) :=
  data ← request_json;
  target_record ← py_get data "targetRecord" PNone;
  record_id ← py_get target_record "PTR_SEQUENCE_NUM" (PStr "unknown");
  mret (target_record, record_id).

(** The [try] block of [generate_tsne]. *)
Definition generate_tsne_try (W : World) (city : string)
    (request_json : result pyvalue) : M http_response :=
  '(target_record, record_id) ← lift (read_request request_json);
  cached ← cache_lookup (cache_key city record_id);
  match cached with
  | Some response => mret (jsonify (JCoordinates response))
  | None => compute_tsne W city target_record record_id
  end.

(** [generate_tsne]: [except Exception as e] answers 500 with [str(e)]. *)
Definition generate_tsne (W : World) (city : string)
    (request_json : result pyvalue) (s : state) : http_response * state :=
  match generate_tsne_try W city request_json s with
  | (Ok response, s') => (response, s')
  | (Raise e, s') => ({| status := 500; body := JError (exn_str e) |}, s')
  end.

(** One request to the projection service. *)
Record request := {
  req_world : World;
  req_city : string;
  req_json : result pyvalue
}.

Definition serve (q : request) (s : state) : http_response * state :=
  generate_tsne (req_world q) (req_city q) (req_json q) s.

(** The state after a sequence of requests. *)
Fixpoint serve_all (qs : list request) (s : state) : state :=
  match qs with
  | [] => s
  | q :: rest => serve_all rest (snd (serve q s))
  end.

End Service.

(** * [reference_data.py] *)

(** What the reference-data service sees: [os.listdir(data_dir)] and
    [pd.read_csv(path).to_dict(orient='records')]. *)
Record RefWorld := {
  data_dir : string;
  listdir : result (list string);
  ref_read_csv : string -> result (list record)
}.

Definition file_mapping : gmap string string :=
  {[ "Baltimore" := "baltimore_reference.csv";
     "Boston" := "boston_reference.csv";
     "LA" := "la_reference.csv" ]}.

(** The loop [for f in files] with its [break]. *)
Fixpoint find_matching_file (city : string) (files : list string)
    (file_name : option string) : option string :=
  match files with
  | [] => file_name
  | f :: rest =>
      if contains (lower city) (lower f) && endswith (lower f) ".csv"
      then Some f
      else find_matching_file city rest file_name
  end.

Definition get_reference_data (W : RefWorld) (city : string) : http_response :=
  match listdir W with
  | Raise e =>
      {| status := 500; body := JError ("Error listing files: " +:+ exn_str e) |}
  | Ok files =>
      let file_name := file_mapping !! city in
      let file_name :=
        if negb (truthy file_name)
           || negb (bool_decide (default "" file_name ∈ files))
        then find_matching_file city files file_name
        else file_name in
      if negb (truthy file_name) then
        {| status := 404;
           body := JError ("Reference data file not found for " +:+ city) |}
      else
        let file_path := data_dir W +:+ "/" +:+ default "" file_name in
        match ref_read_csv W file_path with
        | Ok records => jsonify (JRecords records)
        | Raise e =>
            {| status := 500;
               body := JError ("Failed to read reference data: " +:+ exn_str e) |}
        end
  end.

(** * A concrete library and file system

    Instances of the parameters on which the handlers can be run. *)
Module Demo.

Definition digit_of (c : ascii) : option Z :=
  let n := nat_of_ascii c in
  if ((48 <=? n) && (n <=? 57))%nat then Some (Z.of_nat (n - 48)) else None.

(** Reads [digits] or [digits.digits]: the accumulated integer and the
    number of digits after the point. *)
Fixpoint read_decimal (s : string) (acc : Z) (frac : option nat) : option (Z * nat) :=
  match s with
  | EmptyString => Some (acc, default 0%nat frac)
  | String "." s' =>
      match frac with
      | None => read_decimal s' acc (Some 0%nat)
      | Some _ => None
      end
  | String c s' =>
      match digit_of c with
      | Some d => read_decimal s' (10 * acc + d) (S <$> frac)
      | None => None
      end
  end.

(** A parser for short unsigned decimals. *)
Definition parse_decimal (s : string) : option spec_float :=
  match s with
  | EmptyString => None
  | _ =>
      match read_decimal s 0 None with
      | Some (m, k) =>
          Some (SFdiv prec emax (float_of_Z m) (float_of_Z (10 ^ Z.of_nat k)))
      | None => None
      end
  end.

(** Takes the first [size] indices of [range(a)]. *)
Definition first_indices (g : N) (c : ChoiceCall) : result (list nat) * N :=
  if (0 <=? choice_size c) && (choice_size c <=? choice_a c)
  then (Ok (seq 0 (Z.to_nat (choice_size c))), N.succ g)
  else (Raise (ValueError
                 "Cannot take a larger sample than population when 'replace=False'"),
        g).

(** Keeps the first [n_components] columns of every row; rejects a
    perplexity that is not below the number of rows. *)
Definition first_columns (p : TSNEParams) (X : matrix) : result matrix :=
  if (0 <=? n_components p) && (0 <? perplexity p)
     && (perplexity p <? Z.of_nat (length X))
  then Ok (map (fun row =>
                  map (fun j => nth j row float_zero)
                      (seq 0 (Z.to_nat (n_components p)))) X)
  else Raise (ValueError "perplexity must be less than n_samples").

(** Strict UTF-8: the bytes after a lead byte, of which the first lies
    between [lo] and [hi]. *)
Fixpoint utf8_tail (s : string) (more : nat) (lo hi : nat) : option string :=
  match more with
  | O => Some s
  | S more' =>
      match s with
      | EmptyString => None
      | String c s' =>
          let n := nat_of_ascii c in
          if ((lo <=? n) && (n <=? hi))%nat then utf8_tail s' more' 128 191 else None
      end
  end.

(** One character at the head of [s]: the rest of the string, or [None]
    when the bytes are not the UTF-8 encoding of a character; a
    surrogate (lead byte 237, second byte above 159) is none. *)
Definition utf8_char (s : string) : option string :=
  match s with
  | EmptyString => None
  | String c s' =>
      let n := nat_of_ascii c in
      if (n <? 128)%nat then Some s'
      else if ((194 <=? n) && (n <=? 223))%nat then utf8_tail s' 1 128 191
      else if (n =? 224)%nat then utf8_tail s' 2 160 191
      else if (n =? 237)%nat then utf8_tail s' 2 128 159
      else if ((225 <=? n) && (n <=? 239))%nat then utf8_tail s' 2 128 191
      else if (n =? 240)%nat then utf8_tail s' 3 144 191
      else if ((241 <=? n) && (n <=? 243))%nat then utf8_tail s' 3 128 191
      else if (n =? 244)%nat then utf8_tail s' 3 128 143
      else None
  end.

Fixpoint utf8_valid (fuel : nat) (s : string) : bool :=
  match s, fuel with
  | EmptyString, _ => true
  | _, O => false
  | _, S fuel' =>
      match utf8_char s with
      | Some rest => utf8_valid fuel' rest
      | None => false
      end
  end.

(** A standard output that encodes UTF-8. *)
Definition utf8_stdout (text : string) : result unit :=
  if utf8_valid (String.length text) text then Ok tt
  else Raise (UnicodeEncodeError
                "'utf-8' codec can't encode character: surrogates not allowed").

(** The text of the JSON string ["\ud800"], a lone surrogate. *)
Definition lone_surrogate : string :=
  String (ascii_of_nat 237) (String (ascii_of_nat 160) (String (ascii_of_nat 128) "")).

Definition lib : Lib :=
  {| float_of_string := parse_decimal;
     repr := fun _ => "<repr>";
     random_choice := first_indices;
     fit_transform := first_columns;
     stdout_print := utf8_stdout |}.

(** The same library with a projection routine that raises. *)
Definition lib_raising : Lib :=
  {| float_of_string := parse_decimal;
     repr := fun _ => "<repr>";
     random_choice := first_indices;
     fit_transform := fun _ _ => Raise (ValueError "projection failed");
     stdout_print := utf8_stdout |}.

Definition row (i : nat) : record :=
  {[ "PTR_SEQUENCE_NUM" := PInt (100 + Z.of_nat i);
     "CREAT_DON" := PStr "0.9";
     "AGE_DON" := PInt (40 + Z.of_nat i);
     "KDPI" := PNone ]}.

Definition rows (n : nat) : list record := map row (seq 0 n).

(** Baltimore has ten rows, the LA file exists and cannot be parsed,
    the Boston file is missing. *)
Definition world : World :=
  {| path_exists := fun p =>
       String.eqb p "data/baltimore_reference.csv"
       || String.eqb p "data/la_reference.csv";
     read_csv := fun p =>
       if String.eqb p "data/baltimore_reference.csv" then Ok (rows 10)
       else if String.eqb p "data/la_reference.csv"
            then Raise (OtherError "Error tokenizing data")
            else Raise (FileNotFoundError ("No such file or directory: " +:+ p)) |}.

(** The same files with a healthy LA dataset of three rows. *)
Definition world_la : World :=
  {| path_exists := path_exists world;
     read_csv := fun p =>
       if String.eqb p "data/la_reference.csv" then Ok (rows 3)
       else read_csv world p |}.

(** The same files when the Baltimore dataset had three rows. *)
Definition world_small : World :=
  {| path_exists := path_exists world;
     read_csv := fun p =>
       if String.eqb p "data/baltimore_reference.csv" then Ok (rows 3)
       else read_csv world p |}.

(** The body [{"targetRecord": fields}]. *)
Definition body_of (fields : record) : result pyvalue :=
  Ok (PDict {[ "targetRecord" := PDict fields ]}).

(** The target record of the documented example request. *)
Definition example_target : record :=
  {[ "PTR_SEQUENCE_NUM" := PInt 42;
     "CREAT_DON" := PStr "1.2";
     "AGE_DON" := PStr "55" ]}.

(** A data directory that holds only the LA file. *)
Definition ref_world : RefWorld :=
  {| data_dir := "backend/data";
     listdir := Ok ["la_reference.csv"];
     ref_read_csv := fun p =>
       if String.eqb p "backend/data/la_reference.csv" then Ok (rows 3)
       else Raise (FileNotFoundError ("No such file or directory: " +:+ p)) |}.

End Demo.

(** * Contracts of the library routines and conditions on inputs *)

(** [np.random.choice] without replacement returns [size] distinct
    elements of [range(a)]. *)
Definition choice_contract (L : Lib) : Prop :=
  forall g c,
    choice_replace c = false ->
    0 <= choice_size c <= choice_a c ->
    exists draws g',
      random_choice L g c = (Ok draws, g') /\
      Z.of_nat (length draws) = choice_size c /\
      NoDup draws /\
      Forall (fun i => Z.of_nat i < choice_a c) draws.

(** A projection that returns has one point of [n_components]
    coordinates per input row. *)
Definition tsne_shape (L : Lib) : Prop :=
  forall p X Y,
    fit_transform L p X = Ok Y ->
    length Y = length X /\
    Forall (fun pt => Z.of_nat (length pt) = n_components p) Y.

(** An integer that [float] can convert; every other value either
    converts or raises one of the two exceptions the loops catch. *)
Definition fits_float (v : pyvalue) : bool :=
  match v with
  | PInt z => is_finite (float_of_Z z)
  | _ => true
  end.

Definition record_fits (features : list string) (r : record) : bool :=
  forallb (fun feature => fits_float (default (PInt 0) (r !! feature))) features.

Definition known_city (city : string) : Prop :=
  city = "Baltimore" \/ city = "Boston" \/ city = "LA".

(** What a computation that went past the dataset check did. *)
Definition computed (L : Lib) (W : World) (city : string)
    (target_record record_id : pyvalue) (s : state)
    (X X' Y : matrix) (s' : state) : Prop :=
  exists city_data s1,
    stdout_print L (generating_line L city record_id) = Ok tt /\
    load_city_data W city = Ok city_data /\ city_data <> [] /\
    assemble L (get_important_features city) target_record city_data = Ok X /\
    sample L X s = (Ok X', s1) /\
    fit_transform L (tsne_params X') X' = Ok Y /\
    s' = {| tsne_cache := <[cache_key L city record_id :=
                              {| coordinates := Y; recordId := record_id |}]>
                            (tsne_cache s);
            rng := rng s1;
            trace := trace s1 ++ [EvTSNE (tsne_params X') X'] |}.

(** [repr] never returns the text [unknown]: the text of a float is a
    number, [inf] or [nan], that of a container is bracketed and that of
    a string is quoted. *)
Definition repr_plain (L : Lib) : Prop :=
  forall v, repr L v <> "unknown".

(** The states the service can be in: it starts with an empty cache and
    serves requests one after the other. *)
Inductive reachable (L : Lib) : state -> Prop :=
| reachable_start (seed : N) : reachable L (initial_state seed)
| reachable_serve (q : request) (s : state) :
    reachable L s -> reachable L (snd (serve L q s)).

(** A cache entry that is the projection of a matrix whose row 0 is the
    feature vector of a target record with the entry's identifier, for a
    configured city. *)
Definition entry_of_target (L : Lib) (key : string) (stored : tsne_response) : Prop :=
  exists city target_record tf X',
    known_city city /\
    key = cache_key L city (recordId stored) /\
    py_get target_record "PTR_SEQUENCE_NUM" (PStr "unknown") = Ok (recordId stored) /\
    target_features L (get_important_features city) target_record = Ok tf /\
    X' !! 0%nat = Some (map Np.nan_to_num1 tf) /\
    fit_transform L (tsne_params X') X' = Ok (coordinates stored).

(** The last library call on record. *)
Definition last_event (s : state) : option event := last (trace s).

(** A text of ASCII characters only, on which [lower] is [str.lower()]. *)
Fixpoint is_ascii (s : string) : bool :=
  match s with
  | EmptyString => true
  | String c s' => (nat_of_ascii c <? 128)%nat && is_ascii s'
  end.

(** The same character, or the same ASCII letter in the other case. *)
Definition same_letter (a b : ascii) : bool :=
  let m := nat_of_ascii a in
  let n := nat_of_ascii b in
  ((m =? n)
   || ((65 <=? m) && (m <=? 90) && (n =? m + 32))
   || ((65 <=? n) && (n <=? 90) && (m =? n + 32)))%nat.

(** Texts that differ in the case of ASCII letters only. *)
Fixpoint same_text (s t : string) : bool :=
  match s, t with
  | EmptyString, EmptyString => true
  | String a s', String b t' => same_letter a b && same_text s' t'
  | _, _ => false
  end.

(** The test of the fallback loop of [get_reference_data] on one file
    name. *)
Definition file_matches (city f : string) : bool :=
  contains (lower city) (lower f) && endswith (lower f) ".csv".

(** What [get_reference_data] answers once a file name is chosen. *)
Definition read_response (W : RefWorld) (file_name : string) : http_response :=
  match ref_read_csv W (data_dir W +:+ "/" +:+ file_name) with
  | Ok records => jsonify (JRecords records)
  | Raise e =>
      {| status := 500;
         body := JError ("Failed to read reference data: " +:+ exn_str e) |}
  end.

(** * Results and the state monad *)

Ltac unfold_monad :=
  unfold mbind, mret, M_bind, M_ret, result_bind, result_ret,
         bind, ret, lift, rbind in *.

Lemma rbind_Ok {A B} (r : result A) (k : A -> result B) (b : B) :
  rbind r k = Ok b -> exists a, r = Ok a /\ k a = Ok b.
Proof. destruct r as [a|e]; simpl; [eauto | discriminate]. Qed.

Lemma mapM_result_cons {A B} (f : A -> result B) (x : A) (l : list A) :
  mapM f (x :: l) = rbind (f x) (fun y => rbind (mapM f l) (fun k => Ok (y :: k))).
Proof. reflexivity. Qed.

Lemma mapM_result_length {A B} (f : A -> result B) (l : list A) (ys : list B) :
  mapM f l = Ok ys -> length ys = length l.
Proof.
  revert ys. induction l as [|x l IH]; intros ys H.
  - injection H as <-. reflexivity.
  - rewrite mapM_result_cons in H.
    apply rbind_Ok in H as (y & _ & H).
    apply rbind_Ok in H as (k & Hk & H).
    injection H as <-. simpl. f_equal. auto.
Qed.

Lemma mapM_result_Forall2 {A B} (f : A -> result B) (l : list A) (ys : list B) :
  mapM f l = Ok ys -> Forall2 (fun x y => f x = Ok y) l ys.
Proof.
  revert ys. induction l as [|x l IH]; intros ys H.
  - injection H as <-. constructor.
  - rewrite mapM_result_cons in H.
    apply rbind_Ok in H as (y & Hy & H).
    apply rbind_Ok in H as (k & Hk & H).
    injection H as <-. constructor; auto.
Qed.

Lemma mapM_result_total {A B} (f : A -> result B) (l : list A) :
  Forall (fun x => exists y, f x = Ok y) l -> exists ys, mapM f l = Ok ys.
Proof.
  induction 1 as [|x l [y Hy] _ [ys Hys]].
  - exists []. reflexivity.
  - exists (y :: ys). rewrite mapM_result_cons, Hy. simpl. rewrite Hys. reflexivity.
Qed.

(** * Coercion of fields *)

Lemma float_max_finite : is_finite float_max = true.
Proof. reflexivity. Qed.

Lemma nan_to_num1_finite (f : spec_float) : is_finite (Np.nan_to_num1 f) = true.
Proof. destruct f as [ | [|] | | ]; reflexivity. Qed.

Lemma coerce_fits (L : Lib) (v : pyvalue) :
  fits_float v = true -> exists f, coerce L v = Ok f.
Proof.
  unfold coerce. destruct v as [ | b | z | f | s | l | d]; simpl; intros Hfit; eauto.
  - rewrite Hfit. eauto.
  - destruct (float_of_string L s); eauto.
Qed.

Lemma coerce_raises (L : Lib) (v : pyvalue) (e : exn) :
  coerce L v = Raise e ->
  exists z, v = PInt z /\ is_finite (float_of_Z z) = false /\
            e = OverflowError "int too large to convert to float".
Proof.
  unfold coerce. destruct v as [ | b | z | f | s | l | d]; simpl; try discriminate.
  - destruct (is_finite (float_of_Z z)) eqn:Hz; [discriminate|].
    intros [= <-]. eauto.
  - destruct (float_of_string L s); discriminate.
Qed.

Lemma record_features_fits (L : Lib) (features : list string) (r : record) :
  record_fits features r = true -> exists row, record_features L features r = Ok row.
Proof.
  unfold record_fits, record_features. intros H.
  apply mapM_result_total. apply Forall_forall. intros feature Hin.
  apply coerce_fits. rewrite forallb_forall in H. apply H.
  by apply list_elem_of_In.
Qed.

Lemma target_features_fits (L : Lib) (features : list string) (t : record) :
  record_fits features t = true ->
  exists row, target_features L features (PDict t) = Ok row.
Proof.
  unfold record_fits, target_features. intros H.
  apply mapM_result_total. apply Forall_forall. intros feature Hin.
  simpl. apply coerce_fits. rewrite forallb_forall in H. apply H.
  by apply list_elem_of_In.
Qed.

(** * Matrix assembly *)

Lemma assemble_Ok (L : Lib) features target_record city_data X :
  assemble L features target_record city_data = Ok X ->
  exists tf rows,
    target_features L features target_record = Ok tf /\
    mapM (record_features L features) city_data = Ok rows /\
    X = map Np.nan_to_num1 tf :: Np.nan_to_num rows.
Proof.
  unfold assemble. unfold_monad. intros H.
  destruct (target_features L features target_record) as [tf|] eqn:Htf; [|discriminate].
  destruct (mapM (record_features L features) city_data) as [rows|] eqn:Hrows;
    [|discriminate].
  injection H as <-. eauto.
Qed.

Lemma assemble_fits (L : Lib) features (t : record) city_data :
  record_fits features t = true ->
  forallb (record_fits features) city_data = true ->
  exists X, assemble L features (PDict t) city_data = Ok X.
Proof.
  intros Ht Hdata.
  destruct (target_features_fits L features t Ht) as [tf Htf].
  destruct (mapM_result_total (record_features L features) city_data) as [rows Hrows].
  { apply Forall_forall. intros r Hr. apply record_features_fits.
    rewrite forallb_forall in Hdata. apply Hdata. by apply list_elem_of_In. }
  exists (map Np.nan_to_num1 tf :: Np.nan_to_num rows).
  unfold assemble. unfold_monad. rewrite Htf, Hrows. reflexivity.
Qed.

Lemma assemble_shape (L : Lib) features target_record city_data X :
  assemble L features target_record city_data = Ok X ->
  length X = S (length city_data) /\
  Forall (fun row => length row = length features /\
                     Forall (fun f => is_finite f = true) row) X.
Proof.
  intros H. apply assemble_Ok in H as (tf & rows & Htf & Hrows & ->).
  split.
  - simpl. unfold Np.nan_to_num. rewrite length_map.
    f_equal. by apply mapM_result_length in Hrows.
  - assert (Hfin : forall row, Forall (fun f => is_finite f = true)
                                      (map Np.nan_to_num1 row)).
    { intros row. apply Forall_forall. intros f Hf.
      apply list_elem_of_In, in_map_iff in Hf as (f0 & <- & _).
      apply nan_to_num1_finite. }
    constructor.
    + split; [|apply Hfin]. rewrite length_map.
      by apply mapM_result_length in Htf.
    + apply Forall_forall. intros row Hrow.
      apply list_elem_of_In in Hrow. unfold Np.nan_to_num in Hrow.
      apply in_map_iff in Hrow as (row0 & <- & Hin).
      split; [|apply Hfin]. rewrite length_map.
      apply mapM_result_Forall2 in Hrows.
      apply list_elem_of_In, list_elem_of_lookup in Hin as [i Hi].
      destruct (Forall2_lookup_r _ _ _ _ _ Hrows Hi) as (r & _ & Hr).
      by apply mapM_result_length in Hr.
Qed.

(** * Sampling *)

Lemma take_rows_Ok (X : matrix) (indices : list nat) :
  Forall (fun i => (i < length X)%nat) indices ->
  exists rows, Np.take_rows X indices = Ok rows /\
               Forall2 (fun i row => X !! i = Some row) indices rows.
Proof.
  induction 1 as [|i indices Hi _ (rows & Hrows & Hall)].
  - exists []. split; [reflexivity | constructor].
  - destruct (lookup_lt_is_Some_2 X i Hi) as [row Hrow].
    exists (row :: rows). simpl. rewrite Hrow, Hrows. split; [reflexivity|].
    by constructor.
Qed.

Lemma take_rows_inv (X : matrix) (indices : list nat) (rows : matrix) :
  Np.take_rows X indices = Ok rows ->
  Forall2 (fun i row => X !! i = Some row) indices rows.
Proof.
  revert rows. induction indices as [|i indices IH]; intros rows H; simpl in H.
  - injection H as <-. constructor.
  - destruct (X !! i) as [row|] eqn:Hrow; [|discriminate].
    apply rbind_Ok in H as (rest & Hrest & H). injection H as <-.
    constructor; auto.
Qed.

Lemma sample_below (L : Lib) (X : matrix) (s : state) :
  Z.of_nat (length X) <= max_points -> sample L X s = (Ok X, s).
Proof.
  unfold sample, max_points. intros H.
  destruct (Z.ltb_spec 5000 (Z.of_nat (length X))); [lia | reflexivity].
Qed.

Lemma sample_cache (L : Lib) (X : matrix) (s s' : state) r :
  sample L X s = (r, s') -> tsne_cache s' = tsne_cache s.
Proof.
  unfold sample. destruct (max_points <? Z.of_nat (length X)).
  - unfold_monad. unfold np_random_choice.
    destruct (random_choice L (rng s) _) as [[draws|e] g]; intros [= <- <-]; reflexivity.
  - intros [= <- <-]. reflexivity.
Qed.

Lemma sample_first_row (L : Lib) (X X' : matrix) (s s' : state) :
  sample L X s = (Ok X', s') -> X' !! 0%nat = X !! 0%nat.
Proof.
  unfold sample. destruct (max_points <? Z.of_nat (length X)).
  - unfold_monad. unfold np_random_choice.
    destruct (random_choice L (rng s) _) as [[draws|e] g]; [|discriminate].
    intros [= H <-]. apply (take_rows_inv X (0%nat :: map S draws)) in H.
    inversion H as [|i row idx rows Hrow Hrest]; subst. simpl. by rewrite Hrow.
  - intros [= <- <-]. reflexivity.
Qed.

Lemma sample_above (L : Lib) (X : matrix) (s : state) :
  choice_contract L ->
  max_points < Z.of_nat (length X) ->
  let call := {| choice_a := Z.of_nat (length X) - 1;
                 choice_size := max_points - 1;
                 choice_replace := false;
                 choice_p := None |} in
  exists draws g' X',
    random_choice L (rng s) call = (Ok draws, g') /\
    Z.of_nat (length draws) = max_points - 1 /\
    NoDup draws /\
    Forall (fun i => (S i < length X)%nat) draws /\
    sample L X s = (Ok X', {| tsne_cache := tsne_cache s; rng := g';
                              trace := trace s ++ [EvChoice call] |}) /\
    Forall2 (fun i row => X !! i = Some row) (0%nat :: map S draws) X'.
Proof.
  intros HL Hbig call. unfold max_points in *.
  destruct (HL (rng s) call) as (draws & g' & Hcall & Hlen & Hnodup & Hrange);
    [reflexivity | simpl; lia |].
  simpl in Hlen, Hrange.
  assert (Hidx : Forall (fun i => (i < length X)%nat) (0%nat :: map S draws)).
  { constructor; [lia|]. apply Forall_forall. intros i Hi.
    apply list_elem_of_In, in_map_iff in Hi as (d & <- & Hd).
    rewrite Forall_forall in Hrange.
    apply list_elem_of_In, Hrange in Hd. lia. }
  destruct (take_rows_Ok X _ Hidx) as (X' & Htake & Hrows).
  exists draws, g', X'. repeat split; try assumption.
  - apply Forall_forall. intros d Hd. rewrite Forall_forall in Hrange.
    apply Hrange in Hd. lia.
  - unfold sample, max_points.
    destruct (Z.ltb_spec 5000 (Z.of_nat (length X))); [|lia].
    unfold_monad. unfold np_random_choice.
    replace (Z.min (5000 - 1) (Z.of_nat (length X) - 1)) with (5000 - 1) by lia.
    fold call. rewrite Hcall. by rewrite Htake.
Qed.

(** * Projection *)

Lemma project_run (L : Lib) (X : matrix) (s : state) :
  project L X s =
    (fit_transform L (tsne_params X) X,
     {| tsne_cache := tsne_cache s; rng := rng s;
        trace := trace s ++ [EvTSNE (tsne_params X) X] |}).
Proof.
  unfold project, tsne_fit_transform. unfold_monad.
  destruct (fit_transform L (tsne_params X) X); reflexivity.
Qed.

Lemma tsne_params_perplexity (X : matrix) :
  (2 <= length X)%nat ->
  0 < perplexity (tsne_params X) < Z.of_nat (length X).
Proof. intros H. simpl. lia. Qed.

(** * The handler, case by case *)

Lemma load_city_data_Ok (W : World) (city : string) :
  exists records, load_city_data W city = Ok records.
Proof. unfold load_city_data. destruct (load_city_data_try W city); eauto. Qed.

Lemma generate_tsne_bad_request (L : Lib) W city request_json e s :
  read_request request_json = Raise e ->
  generate_tsne L W city request_json s =
    ({| status := 500; body := JError (exn_str e) |}, s).
Proof.
  intros H. unfold generate_tsne, generate_tsne_try. unfold_monad.
  by rewrite H.
Qed.

Lemma generate_tsne_hit (L : Lib) W city request_json target_record record_id stored s :
  read_request request_json = Ok (target_record, record_id) ->
  tsne_cache s !! cache_key L city record_id = Some stored ->
  generate_tsne L W city request_json s = (jsonify (JCoordinates stored), s).
Proof.
  intros H Hhit. unfold generate_tsne, generate_tsne_try, cache_lookup. unfold_monad.
  by rewrite H, Hhit.
Qed.

Lemma generate_tsne_miss (L : Lib) W city request_json target_record record_id s :
  read_request request_json = Ok (target_record, record_id) ->
  tsne_cache s !! cache_key L city record_id = None ->
  generate_tsne L W city request_json s =
    match compute_tsne L W city target_record record_id s with
    | (Ok response, s') => (response, s')
    | (Raise e, s') => ({| status := 500; body := JError (exn_str e) |}, s')
    end.
Proof.
  intros H Hmiss. unfold generate_tsne, generate_tsne_try, cache_lookup. unfold_monad.
  by rewrite H, Hmiss.
Qed.

(** The steps of [compute_tsne], one after the other. *)
Lemma compute_tsne_run (L : Lib) W city target_record record_id s :
  compute_tsne L W city target_record record_id s =
    match stdout_print L (generating_line L city record_id) with
    | Raise e => (Raise e, s)
    | Ok _ =>
        match load_city_data W city with
        | Raise e => (Raise e, s)
        | Ok [] =>
            (Ok {| status := 404; body := JError ("No data available for " +:+ city) |}, s)
        | Ok (r0 :: rest) =>
            match assemble L (get_important_features city) target_record (r0 :: rest) with
            | Raise e => (Raise e, s)
            | Ok X =>
                match sample L X s with
                | (Raise e, s1) => (Raise e, s1)
                | (Ok X', s1) =>
                    match fit_transform L (tsne_params X') X' with
                    | Raise e =>
                        (Raise e,
                         {| tsne_cache := tsne_cache s1; rng := rng s1;
                            trace := trace s1 ++ [EvTSNE (tsne_params X') X'] |})
                    | Ok Y =>
                        (Ok (jsonify (JCoordinates {| coordinates := Y;
                                                      recordId := record_id |})),
                         {| tsne_cache := <[cache_key L city record_id :=
                                              {| coordinates := Y;
                                                 recordId := record_id |}]>
                                            (tsne_cache s1);
                            rng := rng s1;
                            trace := trace s1 ++ [EvTSNE (tsne_params X') X'] |})
                    end
                end
            end
        end
    end.
Proof.
  unfold compute_tsne. unfold_monad.
  destruct (stdout_print L _) as [[]|e]; [|reflexivity].
  destruct (load_city_data W city) as [[|r0 rest]|e]; try reflexivity.
  destruct (assemble L _ target_record (r0 :: rest)) as [X|e]; [|reflexivity].
  destruct (sample L X s) as [[X'|e] s1]; [|reflexivity].
  rewrite project_run.
  destruct (fit_transform L (tsne_params X') X'); reflexivity.
Qed.

Lemma compute_tsne_unprintable (L : Lib) W city target_record record_id s e :
  stdout_print L (generating_line L city record_id) = Raise e ->
  compute_tsne L W city target_record record_id s = (Raise e, s).
Proof. intros H. by rewrite compute_tsne_run, H. Qed.

Lemma compute_tsne_no_data (L : Lib) W city target_record record_id s :
  stdout_print L (generating_line L city record_id) = Ok tt ->
  load_city_data W city = Ok [] ->
  compute_tsne L W city target_record record_id s =
    (Ok {| status := 404; body := JError ("No data available for " +:+ city) |}, s).
Proof. intros Hp H. by rewrite compute_tsne_run, Hp, H. Qed.

Lemma compute_tsne_cases (L : Lib) W city target_record record_id s r s' :
  compute_tsne L W city target_record record_id s = (r, s') ->
  (load_city_data W city = Ok [] /\ s' = s /\
   r = Ok {| status := 404; body := JError ("No data available for " +:+ city) |})
  \/ (exists e, r = Raise e /\ tsne_cache s' = tsne_cache s)
  \/ (exists X X' Y,
        computed L W city target_record record_id s X X' Y s' /\
        r = Ok (jsonify (JCoordinates {| coordinates := Y; recordId := record_id |}))).
Proof.
  rewrite compute_tsne_run.
  destruct (stdout_print L _) as [[]|e] eqn:Hprint.
  2:{ intros [= <- <-]. right; left. eauto. }
  destruct (load_city_data_Ok W city) as [city_data Hload]. rewrite Hload.
  destruct city_data as [|r0 rest].
  { intros [= <- <-]. left. auto. }
  destruct (assemble L _ target_record (r0 :: rest)) as [X|e] eqn:HX.
  2:{ intros [= <- <-]. right; left. eauto. }
  destruct (sample L X s) as [[X'|e] s1] eqn:Hsample.
  2:{ intros [= <- <-]. right; left. exists e. split; [done|].
      eapply sample_cache; eauto. }
  destruct (fit_transform L (tsne_params X') X') as [Y|e] eqn:HY.
  2:{ intros [= <- <-]. right; left. exists e. split; [done|]. simpl.
      eapply sample_cache; eauto. }
  intros [= <- <-]. right; right.
  exists X, X', Y. split; [|done].
  exists (r0 :: rest), s1. repeat split; try done.
  by rewrite (sample_cache _ _ _ _ _ Hsample).
Qed.

(** * The demonstration library meets the contracts *)

Lemma demo_choice_contract : choice_contract Demo.lib.
Proof.
  intros g c _ [Hlo Hhi]. simpl. unfold Demo.first_indices.
  destruct (Z.leb_spec 0 (choice_size c)); [|lia].
  destruct (Z.leb_spec (choice_size c) (choice_a c)); [|lia]. simpl.
  eexists _, _. split; [reflexivity|]. repeat split.
  - rewrite length_seq. lia.
  - apply NoDup_seq.
  - apply Forall_forall. intros i Hi. apply elem_of_seq in Hi. lia.
Qed.

Lemma demo_tsne_shape : tsne_shape Demo.lib.
Proof.
  intros p X Y. simpl. unfold Demo.first_columns.
  destruct (Z.leb_spec 0 (n_components p)); [|discriminate]. simpl.
  destruct (_ && _); [|discriminate]. intros [= <-].
  rewrite length_map. split; [reflexivity|].
  apply Forall_forall. intros pt Hpt.
  apply list_elem_of_In, in_map_iff in Hpt as (row & <- & _).
  rewrite length_map, length_seq. lia.
Qed.

(** * Requests that succeed *)

Lemma sample_total (L : Lib) (X : matrix) (s : state) :
  choice_contract L ->
  exists X' s',
    sample L X s = (Ok X', s') /\
    Z.of_nat (length X') = Z.min max_points (Z.of_nat (length X)).
Proof.
  intros HL. destruct (Z.le_gt_cases (Z.of_nat (length X)) max_points) as [Hle|Hgt].
  - exists X, s. split; [by apply sample_below | lia].
  - destruct (sample_above L X s HL ltac:(lia))
      as (draws & g' & X' & _ & Hlen & _ & _ & Hsample & Hrows).
    eexists X', _. split; [exact Hsample|].
    apply Forall2_length in Hrows. simpl in Hrows. rewrite length_map in Hrows. lia.
Qed.

Lemma read_request_Ok (d t : record) :
  d !! "targetRecord" = Some (PDict t) ->
  read_request (Ok (PDict d))
    = Ok (PDict t, default (PStr "unknown") (t !! "PTR_SEQUENCE_NUM")).
Proof. intros H. unfold read_request. unfold_monad. simpl. by rewrite H. Qed.

Lemma compute_tsne_success (L : Lib) W city target_record record_id s X X' Y s' :
  computed L W city target_record record_id s X X' Y s' ->
  compute_tsne L W city target_record record_id s =
    (Ok (jsonify (JCoordinates {| coordinates := Y; recordId := record_id |})), s').
Proof.
  intros (data & s1 & Hprint & Hload & Hne & HX & Hsample & HY & ->).
  rewrite compute_tsne_run, Hprint, Hload.
  destruct data as [|r0 rest]; [done|].
  rewrite HX, Hsample, HY.
  by rewrite (sample_cache _ _ _ _ _ Hsample).
Qed.

(** * Library calls *)

Lemma sample_rows_subset (L : Lib) (X X' : matrix) (s s' : state) :
  sample L X s = (Ok X', s') -> forall row, row ∈ X' -> row ∈ X.
Proof.
  unfold sample. destruct (max_points <? Z.of_nat (length X)).
  - unfold_monad. unfold np_random_choice.
    destruct (random_choice L (rng s) _) as [[draws|e] g]; [|discriminate].
    intros [= H _] row Hrow.
    apply (take_rows_inv X (0%nat :: map S draws)) in H.
    apply list_elem_of_lookup in Hrow as [i Hi].
    destruct (Forall2_lookup_r _ _ _ _ _ H Hi) as (k & _ & Hk).
    by eapply list_elem_of_lookup_2.
  - by intros [= <- _].
Qed.

Lemma sample_events (L : Lib) (X : matrix) (s s' : state) r :
  sample L X s = (r, s') ->
  (Z.of_nat (length X) <= max_points /\ s' = s /\ r = Ok X)
  \/ (max_points < Z.of_nat (length X) /\
      exists c, trace s' = (trace s ++ [EvChoice c])%list).
Proof.
  unfold sample. destruct (Z.ltb_spec max_points (Z.of_nat (length X))).
  - unfold_monad. unfold np_random_choice.
    destruct (random_choice L (rng s) _) as [[draws|e] g];
      intros [= <- <-]; right; (split; [done|]); eexists; reflexivity.
  - intros [= <- <-]. by left.
Qed.

Lemma sample_length (L : Lib) (X X' : matrix) (s s' : state) :
  choice_contract L ->
  sample L X s = (Ok X', s') ->
  Z.of_nat (length X') = Z.min max_points (Z.of_nat (length X)).
Proof.
  intros HL H. destruct (sample_total L X s HL) as (X0 & s0 & H0 & Hlen).
  rewrite H in H0. by injection H0 as <- <-.
Qed.

Lemma no_events {A} (l evs : list A) : l = (l ++ evs)%list -> evs = [].
Proof.
  intros H. apply (app_inv_head l). by rewrite app_nil_r.
Qed.

(** A call to the projection routine on record for a request: the
    request missed the cache, its line was printed, the dataset is not
    empty, the matrix is the sampled one, the parameters are those of
    [tsne_params], the call is the last one of the request, and what the
    routine answers decides the response and the cache. *)
Lemma generate_tsne_projection_call (L : Lib) W city request_json s response s' evs p X' :
  generate_tsne L W city request_json s = (response, s') ->
  trace s' = (trace s ++ evs)%list ->
  EvTSNE p X' ∈ evs ->
  exists target_record record_id city_data X s1,
    read_request request_json = Ok (target_record, record_id) /\
    tsne_cache s !! cache_key L city record_id = None /\
    stdout_print L (generating_line L city record_id) = Ok tt /\
    load_city_data W city = Ok city_data /\ city_data <> [] /\
    assemble L (get_important_features city) target_record city_data = Ok X /\
    sample L X s = (Ok X', s1) /\
    p = tsne_params X' /\
    last evs = Some (EvTSNE p X') /\
    response =
      match fit_transform L p X' with
      | Ok Y => jsonify (JCoordinates {| coordinates := Y; recordId := record_id |})
      | Raise e => {| status := 500; body := JError (exn_str e) |}
      end /\
    tsne_cache s' =
      match fit_transform L p X' with
      | Ok Y => <[cache_key L city record_id :=
                    {| coordinates := Y; recordId := record_id |}]> (tsne_cache s)
      | Raise e => tsne_cache s
      end.
Proof.
  intros Hrun Htrace Hin.
  assert (Hnil : s' = s -> False).
  { intros ->. apply no_events in Htrace as ->. by apply elem_of_nil in Hin. }
  destruct (read_request request_json) as [[tr rid]|e] eqn:Hreq.
  2:{ rewrite (generate_tsne_bad_request _ _ _ _ _ _ Hreq) in Hrun.
      injection Hrun as <- <-. by destruct Hnil. }
  destruct (tsne_cache s !! cache_key L city rid) as [stored|] eqn:Hkey.
  { rewrite (generate_tsne_hit _ _ _ _ _ _ _ _ Hreq Hkey) in Hrun.
    injection Hrun as <- <-. by destruct Hnil. }
  rewrite (generate_tsne_miss _ _ _ _ _ _ _ Hreq Hkey), compute_tsne_run in Hrun.
  destruct (stdout_print L _) as [[]|e] eqn:Hprint.
  2:{ injection Hrun as <- <-. by destruct Hnil. }
  destruct (load_city_data_Ok W city) as [city_data Hload]. rewrite Hload in Hrun.
  destruct city_data as [|r0 rest].
  { injection Hrun as <- <-. by destruct Hnil. }
  destruct (assemble L _ tr (r0 :: rest)) as [X|e] eqn:HX.
  2:{ injection Hrun as <- <-. by destruct Hnil. }
  destruct (sample L X s) as [[X0|e] s1] eqn:Hsample.
  2:{ injection Hrun as <- <-.
      destruct (sample_events _ _ _ _ _ Hsample) as [(_ & -> & _) | (_ & c & Hc)];
        [by destruct Hnil|].
      rewrite Hc in Htrace. apply app_inv_head in Htrace as <-.
      apply list_elem_of_singleton in Hin. discriminate. }
  assert (Hevs : fit_transform L (tsne_params X0) X0 = fit_transform L (tsne_params X0) X0 ->
                 trace s' = (trace s1 ++ [EvTSNE (tsne_params X0) X0])%list /\
                 tsne_cache s1 = tsne_cache s).
  { intros _. split; [|by eapply sample_cache].
    by destruct (fit_transform L (tsne_params X0) X0); injection Hrun as <- <-. }
  destruct (Hevs eq_refl) as [Hs' Hcache]. clear Hevs.
  assert (p = tsne_params X0 /\ X' = X0 /\ last evs = Some (EvTSNE p X')) as (-> & -> & Hlast).
  { destruct (sample_events _ _ _ _ _ Hsample) as [(_ & -> & _) | (_ & c & Hc)].
    - rewrite Hs' in Htrace. apply app_inv_head in Htrace as <-.
      apply list_elem_of_singleton in Hin. by injection Hin as -> ->.
    - rewrite Hs', Hc, <- app_assoc in Htrace. apply app_inv_head in Htrace as <-.
      apply elem_of_cons in Hin as [[=] | Hin].
      apply list_elem_of_singleton in Hin. by injection Hin as -> ->. }
  exists tr, rid, (r0 :: rest), X, s1.
  split; [done|]. split; [done|]. split; [done|]. split; [done|]. split; [done|].
  split; [done|]. split; [done|]. split; [done|]. split; [done|].
  destruct (fit_transform L (tsne_params X0) X0); injection Hrun as <- <-;
    (split; [done|]); simpl; by rewrite ?Hcache.
Qed.

(** A computed response with status 200 comes from such a call. *)
Lemma computed_call (L : Lib) W city target_record record_id s X X' Y s' :
  computed L W city target_record record_id s X X' Y s' ->
  exists evs,
    trace s' = (trace s ++ evs)%list /\
    last evs = Some (EvTSNE (tsne_params X') X') /\
    EvTSNE (tsne_params X') X' ∈ evs.
Proof.
  intros (data & s1 & _ & _ & _ & _ & Hsample & _ & ->). simpl.
  destruct (sample_events _ _ _ _ _ Hsample) as [(_ & -> & _) | (_ & c & ->)].
  - exists [EvTSNE (tsne_params X') X']. split; [done|]. split; [done|].
    by apply list_elem_of_singleton.
  - exists [EvChoice c; EvTSNE (tsne_params X') X']. rewrite <- app_assoc.
    split; [done|]. split; [done|]. apply elem_of_cons. right.
    by apply list_elem_of_singleton.
Qed.

(** * Every way a request can end *)

Lemma generate_tsne_cases (L : Lib) W city request_json s response s' :
  generate_tsne L W city request_json s = (response, s') ->
  (exists e,
      read_request request_json = Raise e /\
      response = {| status := 500; body := JError (exn_str e) |} /\ s' = s)
  \/ (exists target_record record_id stored,
        read_request request_json = Ok (target_record, record_id) /\
        tsne_cache s !! cache_key L city record_id = Some stored /\
        response = jsonify (JCoordinates stored) /\ s' = s)
  \/ (exists target_record record_id,
        read_request request_json = Ok (target_record, record_id) /\
        tsne_cache s !! cache_key L city record_id = None /\
        ((load_city_data W city = Ok [] /\ s' = s /\
          response = {| status := 404;
                        body := JError ("No data available for " +:+ city) |})
         \/ (exists e,
               response = {| status := 500; body := JError (exn_str e) |} /\
               tsne_cache s' = tsne_cache s)
         \/ (exists X X' Y,
               computed L W city target_record record_id s X X' Y s' /\
               response = jsonify (JCoordinates {| coordinates := Y;
                                                   recordId := record_id |})))).
Proof.
  intros Hrun.
  destruct (read_request request_json) as [[target_record record_id]|e] eqn:Hreq.
  2:{ rewrite (generate_tsne_bad_request _ _ _ _ _ _ Hreq) in Hrun.
      injection Hrun as <- <-. left. eauto. }
  right.
  destruct (tsne_cache s !! cache_key L city record_id) as [stored|] eqn:Hkey.
  { rewrite (generate_tsne_hit _ _ _ _ _ _ _ _ Hreq Hkey) in Hrun.
    injection Hrun as <- <-. left. eauto 10. }
  right. exists target_record, record_id. split; [done|]. split; [done|].
  rewrite (generate_tsne_miss _ _ _ _ _ _ _ Hreq Hkey) in Hrun.
  destruct (compute_tsne L W city target_record record_id s) as [r s2] eqn:Hc.
  apply compute_tsne_cases in Hc
    as [(Hempty & -> & ->) | [(e & -> & Hcache) | (X & X' & Y & Hcomp & ->)]];
    injection Hrun as <- <-; eauto 10.
Qed.

Lemma computed_cache (L : Lib) W city target_record record_id s X X' Y s' :
  computed L W city target_record record_id s X X' Y s' ->
  tsne_cache s' = <[cache_key L city record_id :=
                      {| coordinates := Y; recordId := record_id |}]> (tsne_cache s).
Proof. intros (data & s1 & _ & _ & _ & _ & _ & _ & ->). reflexivity. Qed.

(** The cache changes only by the store of a computed response. *)
Lemma generate_tsne_cache (L : Lib) W city request_json s response s' :
  generate_tsne L W city request_json s = (response, s') ->
  tsne_cache s' = tsne_cache s
  \/ (exists target_record record_id X X' Y,
        read_request request_json = Ok (target_record, record_id) /\
        tsne_cache s !! cache_key L city record_id = None /\
        computed L W city target_record record_id s X X' Y s' /\
        response = jsonify (JCoordinates {| coordinates := Y;
                                            recordId := record_id |})).
Proof.
  intros H. apply generate_tsne_cases in H
    as [(e & _ & _ & ->) | [(tr & rid & st & _ & _ & _ & ->)
       | (tr & rid & Hreq & Hmiss &
          [(_ & -> & _) | [(e & _ & Hc) | (X & X' & Y & Hcomp & ->)]])]];
    auto.
  right. exists tr, rid, X, X', Y. auto.
Qed.

(** Entries are never removed or replaced. *)
Lemma generate_tsne_cache_mono (L : Lib) W city request_json s response s' key stored :
  generate_tsne L W city request_json s = (response, s') ->
  tsne_cache s !! key = Some stored ->
  tsne_cache s' !! key = Some stored.
Proof.
  intros H Hkey. apply generate_tsne_cache in H
    as [-> | (tr & rid & X & X' & Y & _ & Hmiss & Hcomp & _)]; [done|].
  rewrite (computed_cache _ _ _ _ _ _ _ _ _ _ Hcomp).
  rewrite lookup_insert_ne; [done|]. intros <-. congruence.
Qed.

Lemma serve_all_cache_mono (L : Lib) qs s key stored :
  tsne_cache s !! key = Some stored ->
  tsne_cache (serve_all L qs s) !! key = Some stored.
Proof.
  revert s. induction qs as [|q qs IH]; intros s Hkey; [done|].
  simpl. apply IH. unfold serve.
  eapply generate_tsne_cache_mono; [apply surjective_pairing | done].
Qed.

(** A response with status 200 is in the cache under the request's key. *)
Lemma generate_tsne_200_stored (L : Lib) W city request_json target_record record_id
    s response s' :
  read_request request_json = Ok (target_record, record_id) ->
  generate_tsne L W city request_json s = (response, s') ->
  status response = 200 ->
  exists stored,
    response = jsonify (JCoordinates stored) /\
    tsne_cache s' !! cache_key L city record_id = Some stored.
Proof.
  intros Hreq H H200. apply generate_tsne_cases in H
    as [(e & _ & -> & _) | [(tr & rid & st & Hreq' & Hhit & -> & ->)
       | (tr & rid & Hreq' & Hmiss &
          [(_ & _ & ->) | [(e & -> & _) | (X & X' & Y & Hcomp & ->)]])]];
    try discriminate.
  - rewrite Hreq in Hreq'. injection Hreq' as <- <-. eauto.
  - rewrite Hreq in Hreq'. injection Hreq' as <- <-.
    eexists. split; [done|].
    rewrite (computed_cache _ _ _ _ _ _ _ _ _ _ Hcomp). apply lookup_insert_eq.
Qed.

(** * Cities and their files *)

Lemma unknown_city_unmapped (city : string) :
  ~ known_city city ->
  feature_map !! city = None /\ city_file_map !! city = None /\
  file_mapping !! city = None.
Proof.
  unfold known_city. intros H.
  assert ("Baltimore" <> city /\ "Boston" <> city /\ "LA" <> city)
    as (H1 & H2 & H3) by (repeat split; intros <-; tauto).
  unfold feature_map, city_file_map, file_mapping.
  by rewrite !lookup_insert_ne, !lookup_singleton_ne.
Qed.

Lemma mapped_city_known {A} (m : gmap string A) (city : string) (x y z v : A) :
  m = {[ "Baltimore" := x; "Boston" := y; "LA" := z ]}
  \/ m = {[ "Baltimore" := x; "LA" := y; "Boston" := z ]} ->
  m !! city = Some v ->
  known_city city /\ (v = x \/ v = y \/ v = z).
Proof.
  unfold known_city. intros Hm Hv.
  destruct (decide (city = "Baltimore")) as [-> | H1];
    [destruct Hm as [-> | ->]; rewrite lookup_insert_eq in Hv; injection Hv as <-;
     auto |].
  destruct (decide (city = "Boston")) as [-> | H2];
    [destruct Hm as [-> | ->];
     rewrite lookup_insert_ne in Hv by done;
     [rewrite lookup_insert_eq in Hv
     | rewrite lookup_insert_ne, lookup_singleton_eq in Hv by done];
     injection Hv as <-; auto |].
  destruct (decide (city = "LA")) as [-> | H3];
    [destruct Hm as [-> | ->];
     rewrite lookup_insert_ne in Hv by done;
     [rewrite lookup_insert_ne, lookup_singleton_eq in Hv by done
     | rewrite lookup_insert_eq in Hv];
     injection Hv as <-; auto |].
  destruct Hm as [-> | ->];
    rewrite !lookup_insert_ne, lookup_singleton_ne in Hv by done; discriminate.
Qed.

Lemma city_file_map_truthy (city path : string) :
  city_file_map !! city = Some path -> truthy (Some path) = true.
Proof.
  intros H.
  apply (mapped_city_known _ _ "data/baltimore_reference.csv"
           "data/la_reference.csv" "data/boston_reference.csv")
    in H as [_ [-> | [-> | ->]]]; [reflexivity.. | right; reflexivity].
Qed.

Lemma file_mapping_truthy (city name : string) :
  file_mapping !! city = Some name -> truthy (Some name) = true.
Proof.
  intros H.
  apply (mapped_city_known _ _ "baltimore_reference.csv"
           "boston_reference.csv" "la_reference.csv")
    in H as [_ [-> | [-> | ->]]]; [reflexivity.. | left; reflexivity].
Qed.

(** * Keys of reachable caches *)

Lemma pretty_N_go_not_unknown (x : N) (s : string) :
  s <> "unknown" -> pretty_N_go x s <> "unknown".
Proof.
  revert s. induction (N.lt_wf_0 x) as [x _ IH]; intros s Hs.
  assert (x = 0 \/ 0 < x)%N as [-> | Hpos] by lia.
  - by rewrite pretty_N_go_0.
  - rewrite pretty_N_go_step by done. apply IH.
    + by apply N.div_lt.
    + unfold pretty_N_char. by repeat case_match.
Qed.

Lemma pretty_Z_not_unknown (z : Z) : pretty z <> "unknown".
Proof.
  destruct z as [|p|p]; unfold pretty, pretty_Z; [done| |done].
  unfold pretty, pretty_positive, pretty, pretty_N.
  case_decide; [done|]. by apply pretty_N_go_not_unknown.
Qed.

Lemma py_str_unknown (L : Lib) (v : pyvalue) :
  repr_plain L -> py_str (repr L) v = "unknown" -> v = PStr "unknown".
Proof.
  intros Hrepr. destruct v as [ | [|] | z | f | s | l | d]; simpl; try done.
  - intros H. by apply pretty_Z_not_unknown in H.
  - intros H. by apply Hrepr in H.
  - by intros ->.
  - intros H. by apply Hrepr in H.
  - intros H. by apply Hrepr in H.
Qed.

(** The names of the configured cities have no underscore, so the key of
    a configured city tells the city and the text of the identifier. *)
Lemma known_key_split (c1 c2 a b : string) :
  known_city c1 -> known_city c2 ->
  c1 +:+ "_" +:+ a = c2 +:+ "_" +:+ b -> c1 = c2 /\ a = b.
Proof.
  intros [-> | [-> | ->]] [-> | [-> | ->]]; simpl; intros H;
    try discriminate; by injection H.
Qed.

Lemma load_city_data_known (W : World) (city : string) (records : list record) :
  load_city_data W city = Ok records -> records <> [] -> known_city city.
Proof.
  intros Hload Hne. unfold known_city.
  destruct (String.eqb_spec city "Baltimore"); [tauto|].
  destruct (String.eqb_spec city "Boston"); [tauto|].
  destruct (String.eqb_spec city "LA"); [tauto|].
  assert (Hunknown : ~ known_city city) by (unfold known_city; tauto).
  destruct (unknown_city_unmapped city Hunknown) as (_ & Hmap & _).
  unfold load_city_data, load_city_data_try in Hload. rewrite Hmap in Hload.
  simpl in Hload. congruence.
Qed.

(** * What the cache holds *)

Lemma read_request_id (request_json : result pyvalue) (target_record record_id : pyvalue) :
  read_request request_json = Ok (target_record, record_id) ->
  py_get target_record "PTR_SEQUENCE_NUM" (PStr "unknown") = Ok record_id.
Proof.
  unfold read_request. unfold_monad. intros H.
  destruct request_json as [data|]; [|discriminate].
  destruct (py_get data "targetRecord" PNone) as [tr|]; [|discriminate].
  destruct (py_get tr "PTR_SEQUENCE_NUM" (PStr "unknown")) as [rid|] eqn:Hid;
    [|discriminate].
  injection H as <- <-. exact Hid.
Qed.

Lemma computed_entry (L : Lib) W city target_record record_id s X X' Y s' :
  py_get target_record "PTR_SEQUENCE_NUM" (PStr "unknown") = Ok record_id ->
  computed L W city target_record record_id s X X' Y s' ->
  entry_of_target L (cache_key L city record_id)
    {| coordinates := Y; recordId := record_id |}.
Proof.
  intros Hid (data & s1 & _ & Hload & Hne & HX & Hsample & HY & _).
  pose proof (assemble_Ok _ _ _ _ _ HX) as (tf & rows & Htf & _ & HXeq).
  exists city, target_record, tf, X'. simpl. repeat split; try done.
  - by eapply load_city_data_known.
  - rewrite (sample_first_row _ _ _ _ _ Hsample). by rewrite HXeq.
Qed.

Lemma reachable_entries (L : Lib) (s : state) (key : string) (stored : tsne_response) :
  reachable L s ->
  tsne_cache s !! key = Some stored ->
  entry_of_target L key stored.
Proof.
  intros Hreach. revert key stored.
  induction Hreach as [seed | q s _ IH]; intros key stored Hkey.
  - simpl in Hkey. by rewrite lookup_empty in Hkey.
  - unfold serve in Hkey.
    destruct (generate_tsne L (req_world q) (req_city q) (req_json q) s)
      as [response s'] eqn:Hrun. simpl in Hkey.
    apply generate_tsne_cache in Hrun
      as [Heq | (tr & rid & X & X' & Y & Hreq & _ & Hcomp & _)].
    + rewrite Heq in Hkey. by apply IH.
    + rewrite (computed_cache _ _ _ _ _ _ _ _ _ _ Hcomp) in Hkey.
      destruct (decide (cache_key L (req_city q) rid = key)) as [<- | Hne].
      * rewrite lookup_insert_eq in Hkey. injection Hkey as <-.
        eapply computed_entry; [|exact Hcomp]. by eapply read_request_id.
      * rewrite lookup_insert_ne in Hkey by done. by apply IH.
Qed.

Lemma reachable_cache_keys (L : Lib) (s : state) (key : string) (stored : tsne_response) :
  reachable L s ->
  tsne_cache s !! key = Some stored ->
  exists city, known_city city /\ key = cache_key L city (recordId stored).
Proof.
  intros Hreach Hkey.
  destruct (reachable_entries L s key stored Hreach Hkey)
    as (city & _ & _ & _ & Hcity & Hk & _).
  eauto.
Qed.

(** * The reference-data lookup *)

Lemma find_matching_file_none (city : string) (files : list string) (o : option string) :
  Forall (fun f => contains (lower city) (lower f) && endswith (lower f) ".csv" = false)
         files ->
  find_matching_file city files o = o.
Proof.
  induction 1 as [|f files Hf _ IH]; [done|]. simpl. by rewrite Hf.
Qed.

(** A city without a mapping and without a matching file name: 404. *)
Lemma reference_data_unmapped (W : RefWorld) (city : string) (files : list string) :
  listdir W = Ok files ->
  file_mapping !! city = None ->
  Forall (fun f => contains (lower city) (lower f) && endswith (lower f) ".csv" = false)
         files ->
  get_reference_data W city =
    {| status := 404;
       body := JError ("Reference data file not found for " +:+ city) |}.
Proof.
  intros Hdir Hmap Hfiles. unfold get_reference_data. rewrite Hdir, Hmap. simpl.
  by rewrite (find_matching_file_none _ _ _ Hfiles).
Qed.

(** A mapped city whose file is not in the directory and without a
    matching file name: the mapped name is read all the same. *)
Lemma reference_data_mapped_missing (W : RefWorld) (city name : string)
    (files : list string) (e : exn) :
  listdir W = Ok files ->
  file_mapping !! city = Some name ->
  name ∉ files ->
  Forall (fun f => contains (lower city) (lower f) && endswith (lower f) ".csv" = false)
         files ->
  ref_read_csv W (data_dir W +:+ "/" +:+ name) = Raise e ->
  get_reference_data W city =
    {| status := 500;
       body := JError ("Failed to read reference data: " +:+ exn_str e) |}.
Proof.
  intros Hdir Hmap Hnot Hfiles Hread. unfold get_reference_data. rewrite Hdir, Hmap.
  pose proof (file_mapping_truthy _ _ Hmap) as Htruthy.
  rewrite Htruthy. change (default "" (Some name)) with name.
  rewrite bool_decide_eq_false_2 by done. cbn [negb orb].
  rewrite (find_matching_file_none _ _ _ Hfiles), Htruthy.
  change (default "" (Some name)) with name. cbn [negb].
  by rewrite Hread.
Qed.

(** * The target record stays in front *)

(** C1, as the code has it.  The target's feature vector is row 0 of the
    assembled matrix, sampling keeps it at row 0, and a request for a
    city with a non-empty dataset that is not answered from the cache
    either fails with status 500 or returns the projection of a matrix
    whose row 0 is the target's vector; the projection has one point per
    row, so its first point is the target's.  In every state the service
    can reach, a response with status 200, computed or cached, is the
    projection of a matrix whose row 0 is the vector of a target record
    with the response's identifier and the request's key: a request
    answered from the cache gets the stored list, whatever its own
    target record holds. *)
Theorem target_is_first_row (L : Lib) :
  (forall features target_record city_data X,
      assemble L features target_record city_data = Ok X ->
      exists tf,
        target_features L features target_record = Ok tf /\
        X !! 0%nat = Some (map Np.nan_to_num1 tf) /\
        length X = S (length city_data)) /\
  (forall X X' s s',
      sample L X s = (Ok X', s') -> X' !! 0%nat = X !! 0%nat) /\
  (forall W city request_json target_record record_id city_data s response s',
      read_request request_json = Ok (target_record, record_id) ->
      tsne_cache s !! cache_key L city record_id = None ->
      load_city_data W city = Ok city_data ->
      city_data <> [] ->
      generate_tsne L W city request_json s = (response, s') ->
      status response = 500 \/
      exists tf X X' Y,
        target_features L (get_important_features city) target_record = Ok tf /\
        computed L W city target_record record_id s X X' Y s' /\
        X' !! 0%nat = Some (map Np.nan_to_num1 tf) /\
        response = jsonify (JCoordinates {| coordinates := Y; recordId := record_id |}) /\
        last_event s' = Some (EvTSNE (tsne_params X') X') /\
        (tsne_shape L -> length Y = length X' /\ is_Some (Y !! 0%nat))) /\
  (forall W city request_json s response s',
      reachable L s ->
      generate_tsne L W city request_json s = (response, s') ->
      status response = 200 ->
      exists target_record record_id stored,
        read_request request_json = Ok (target_record, record_id) /\
        response = jsonify (JCoordinates stored) /\
        entry_of_target L (cache_key L city record_id) stored) /\
  (forall W city request_json target_record record_id stored s,
      read_request request_json = Ok (target_record, record_id) ->
      tsne_cache s !! cache_key L city record_id = Some stored ->
      generate_tsne L W city request_json s = (jsonify (JCoordinates stored), s)).
Proof.
  split; [|split; [|split; [|split]]].
  - intros features target_record city_data X H.
    pose proof (assemble_shape _ _ _ _ _ H) as [Hlen _].
    apply assemble_Ok in H as (tf & rows & Htf & _ & ->). eauto.
  - intros X X' s s'. apply sample_first_row.
  - intros W city request_json target_record record_id city_data s response s'
           Hreq Hmiss Hload Hne Hrun.
    rewrite (generate_tsne_miss _ _ _ _ _ _ _ Hreq Hmiss) in Hrun.
    destruct (compute_tsne L W city target_record record_id s) as [r s2] eqn:Hc.
    apply compute_tsne_cases in Hc
      as [(Hempty & _) | [(e & -> & _) | (X & X' & Y & Hcomp & ->)]].
    + congruence.
    + injection Hrun as <- <-. by left.
    + injection Hrun as <- <-. right.
      pose proof Hcomp as (data & s1 & _ & _ & _ & HX & Hsample & HY & Hs').
      pose proof (assemble_Ok _ _ _ _ _ HX) as (tf & rows & Htf & _ & HXeq).
      exists tf, X, X', Y. repeat split; try done.
      * rewrite (sample_first_row _ _ _ _ _ Hsample). by rewrite HXeq.
      * rewrite Hs'. unfold last_event. simpl. apply last_snoc.
      * by apply H in HY as [? _].
      * apply H in HY as [Hlen _]. apply lookup_lt_is_Some. rewrite Hlen.
        assert (is_Some (X' !! 0%nat)) as HX'.
        { rewrite (sample_first_row _ _ _ _ _ Hsample), HXeq. by eexists. }
        by apply lookup_lt_is_Some in HX'.
  - intros W city request_json s response s' Hreach Hrun H200.
    apply generate_tsne_cases in Hrun
      as [(e & _ & -> & _) | [(tr & rid & st & Hreq & Hhit & -> & _)
         | (tr & rid & Hreq & _ &
            [(_ & _ & ->) | [(e & -> & _) | (X & X' & Y & Hcomp & ->)]])]];
      try discriminate.
    + exists tr, rid, st. split; [done|]. split; [done|].
      by eapply reachable_entries.
    + eexists tr, rid, _. split; [done|]. split; [done|].
      eapply computed_entry; [|exact Hcomp]. by eapply read_request_id.
  - intros W city request_json target_record record_id stored s Hreq Hhit.
    by eapply generate_tsne_hit.
Qed.

Lemma target_is_first_row_witness :
  read_request (Demo.body_of Demo.example_target)
    = Ok (PDict Demo.example_target, PInt 42) /\
  tsne_cache (initial_state 0) !! cache_key Demo.lib "Baltimore" (PInt 42) = None /\
  load_city_data Demo.world "Baltimore" = Ok (Demo.rows 10) /\
  Demo.rows 10 <> [] /\
  exists tf X',
    target_features Demo.lib (get_important_features "Baltimore")
      (PDict Demo.example_target) = Ok tf /\
    X' !! 0%nat = Some (map Np.nan_to_num1 tf) /\
    last_event
      (snd (generate_tsne Demo.lib Demo.world "Baltimore"
              (Demo.body_of Demo.example_target) (initial_state 0)))
      = Some (EvTSNE (tsne_params X') X').
Proof.
  assert (H1 : read_request (Demo.body_of Demo.example_target)
               = Ok (PDict Demo.example_target, PInt 42)) by reflexivity.
  assert (H2 : tsne_cache (initial_state 0)
                 !! cache_key Demo.lib "Baltimore" (PInt 42) = None) by reflexivity.
  assert (H3 : load_city_data Demo.world "Baltimore" = Ok (Demo.rows 10))
    by reflexivity.
  assert (H4 : Demo.rows 10 <> []) by discriminate.
  split; [exact H1|]. split; [exact H2|]. split; [exact H3|]. split; [exact H4|].
  destruct (target_is_first_row Demo.lib) as (_ & _ & H & _).
  destruct (H Demo.world "Baltimore" _ _ _ _ (initial_state 0) _ _ H1 H2 H3 H4
              (surjective_pairing _))
    as [H500 | (tf & X & X' & Y & Htf & _ & Hrow & _ & Hlast & _)].
  - vm_compute in H500. discriminate.
  - exists tf, X'. auto.
Defined.

(** A request answered from the cache gets the list computed for the
    earlier request with its key.  The second request for record 42 of
    Baltimore carries another creatinine value: it is answered with the
    response of the first and no library call, and its first point is
    the first request's target, not the projection of any matrix whose
    row 0 is its own. *)
Lemma cached_answer_is_another_targets :
  let other_target : record :=
    {[ "PTR_SEQUENCE_NUM" := PInt 42; "CREAT_DON" := PStr "3.4";
       "AGE_DON" := PStr "55" ]} in
  let first := generate_tsne Demo.lib Demo.world "Baltimore"
                 (Demo.body_of Demo.example_target) (initial_state 0) in
  let second := generate_tsne Demo.lib Demo.world "Baltimore"
                  (Demo.body_of other_target) (snd first) in
  known_city "Baltimore" /\
  load_city_data Demo.world "Baltimore" = Ok (Demo.rows 10) /\
  reachable Demo.lib (snd first) /\
  status (fst second) = 200 /\
  second = first /\
  exists tf tf' Y,
    target_features Demo.lib (get_important_features "Baltimore")
      (PDict Demo.example_target) = Ok tf /\
    target_features Demo.lib (get_important_features "Baltimore")
      (PDict other_target) = Ok tf' /\
    body (fst second) = JCoordinates {| coordinates := Y; recordId := PInt 42 |} /\
    Y !! 0%nat = Some (take 2 tf) /\
    take 2 tf <> take 2 tf' /\
    forall X',
      X' !! 0%nat = Some (map Np.nan_to_num1 tf') ->
      fit_transform Demo.lib (tsne_params X') X' <> Ok Y.
Proof.
  intros other_target first second.
  split; [by left|]. split; [reflexivity|].
  split.
  { apply (reachable_serve Demo.lib
             {| req_world := Demo.world; req_city := "Baltimore";
                req_json := Demo.body_of Demo.example_target |} (initial_state 0)).
    apply reachable_start. }
  split; [reflexivity|]. split; [reflexivity|].
  eexists _, _, _.
  split; [vm_compute; reflexivity|]. split; [vm_compute; reflexivity|].
  split; [vm_compute; reflexivity|]. split; [vm_compute; reflexivity|].
  split; [vm_compute; discriminate|].
  intros X' Hrow Hfit. simpl in Hfit. unfold Demo.first_columns in Hfit.
  destruct (_ && _); [|discriminate]. injection Hfit as HY.
  apply (f_equal (fun l => l !! 0%nat)) in HY.
  rewrite list_lookup_fmap, Hrow in HY. vm_compute in HY. discriminate.
Qed.

(** * Sampling keeps the target *)

(** C2.  At most [max_points] = 5000 rows: the matrix is left as it is.
    More: [np.random.choice] is asked for [max_points - 1] of the indices
    [0 .. total - 2] without replacement under the uniform distribution,
    the draws shifted by one are indices of comparison rows, and the
    result is the target row followed by the drawn rows.  Either way the
    result has [min max_points total] rows and the same row 0. *)
Theorem sampling_keeps_target (L : Lib) (X : matrix) (s : state) :
  choice_contract L ->
  let total := Z.of_nat (length X) in
  max_points = 5000 /\
  (total <= max_points -> sample L X s = (Ok X, s)) /\
  (max_points < total ->
   let call := {| choice_a := total - 1; choice_size := max_points - 1;
                  choice_replace := false; choice_p := None |} in
   exists draws g' X',
     random_choice L (rng s) call = (Ok draws, g') /\
     sample L X s = (Ok X', {| tsne_cache := tsne_cache s; rng := g';
                               trace := trace s ++ [EvChoice call] |}) /\
     Z.of_nat (length draws) = max_points - 1 /\
     NoDup draws /\
     Forall (fun d => 1 <= Z.of_nat (S d) <= total - 1) draws /\
     X' !! 0%nat = X !! 0%nat /\
     (forall j d, draws !! j = Some d -> X' !! S j = X !! S d)) /\
  (exists X' s',
     sample L X s = (Ok X', s') /\
     Z.of_nat (length X') = Z.min max_points total /\
     X' !! 0%nat = X !! 0%nat).
Proof.
  intros HL total.
  assert (Hbig : max_points < total ->
     let call := {| choice_a := total - 1; choice_size := max_points - 1;
                    choice_replace := false; choice_p := None |} in
     exists draws g' X',
       random_choice L (rng s) call = (Ok draws, g') /\
       sample L X s = (Ok X', {| tsne_cache := tsne_cache s; rng := g';
                                 trace := trace s ++ [EvChoice call] |}) /\
       Z.of_nat (length draws) = max_points - 1 /\
       NoDup draws /\
       Forall (fun d => 1 <= Z.of_nat (S d) <= total - 1) draws /\
       X' !! 0%nat = X !! 0%nat /\
       (forall j d, draws !! j = Some d -> X' !! S j = X !! S d) /\
       length X' = S (length draws)).
  { intros Hgt call.
    destruct (sample_above L X s HL Hgt)
      as (draws & g' & X' & Hcall & Hlen & Hnodup & Hrange & Hsample & Hrows).
    exists draws, g', X'. repeat split; try assumption.
    - apply Forall_forall. intros d Hd. rewrite Forall_forall in Hrange.
      apply Hrange in Hd. subst total. lia.
    - inversion Hrows as [|i row idx rows Hrow Hrest]; subst. simpl. by rewrite Hrow.
    - intros j d Hd.
      inversion Hrows as [|i row idx rows Hrow Hrest]; subst. simpl.
      assert (Hj : map S draws !! j = Some (S d)) by (by rewrite list_lookup_fmap, Hd).
      destruct (Forall2_lookup_l _ _ _ _ _ Hrest Hj) as (r & -> & Hr). by rewrite Hr.
    - apply Forall2_length in Hrows. rewrite <- Hrows. simpl. by rewrite length_map. }
  split; [reflexivity|]. split; [apply sample_below|]. split.
  - intros Hgt call. destruct (Hbig Hgt) as (d & g & X' & ? & ? & ? & ? & ? & ? & ? & _).
    exists d, g, X'. auto 10.
  - destruct (Z.le_gt_cases total max_points) as [Hle|Hgt].
    + exists X, s. split; [by apply sample_below|]. split; [lia | reflexivity].
    + destruct (Hbig ltac:(lia)) as (d & g & X' & _ & Hs & Hd & _ & _ & H0 & _ & Hlen).
      eexists X', _. split; [exact Hs|]. split; [lia | exact H0].
Qed.

Lemma sampling_keeps_target_witness :
  choice_contract Demo.lib /\
  exists X' s',
    sample Demo.lib (replicate (Z.to_nat 5001) [float_zero]) (initial_state 7) = (Ok X', s') /\
    Z.of_nat (length X') = 5000 /\
    X' !! 0%nat = Some [float_zero].
Proof.
  split; [exact demo_choice_contract|].
  destruct (sampling_keeps_target Demo.lib (replicate (Z.to_nat 5001) [float_zero])
              (initial_state 7) demo_choice_contract)
    as (_ & _ & _ & X' & s' & Hs & Hlen & H0).
  exists X', s'. split; [exact Hs|]. split.
  - rewrite Hlen, length_replicate. reflexivity.
  - rewrite H0. reflexivity.
Defined.

(** * Integers too large for a float *)

(** C3.  [float] raises OverflowError on an integer beyond the range of a
    float, which [except (ValueError, TypeError)] does not catch: with
    such an integer in a feature of the target record no matrix is
    assembled and the request is answered with status 500. *)
Theorem oversized_integer_is_not_coerced :
  let target : record := <["KDPI" := PInt (10 ^ 400)]> Demo.example_target in
  (forall L, coerce L (PInt (10 ^ 400))
             = Raise (OverflowError "int too large to convert to float")) /\
  (forall L, assemble L (get_important_features "Baltimore") (PDict target)
               (Demo.rows 10)
             = Raise (OverflowError "int too large to convert to float")) /\
  generate_tsne Demo.lib Demo.world "Baltimore" (Demo.body_of target) (initial_state 0) =
    ({| status := 500; body := JError "int too large to convert to float" |},
     initial_state 0).
Proof.
  intros target. split; [|split].
  - intros L. reflexivity.
  - intros L. assert (Htf : target_features L (get_important_features "Baltimore")
                              (PDict target)
                            = Raise (OverflowError "int too large to convert to float")).
    { destruct L as [parse ? ? ? ?]. vm_compute. destruct (parse "1.2"); reflexivity. }
    unfold assemble. unfold_monad. by rewrite Htf.
  - reflexivity.
Qed.

(** * A mapped city without its file *)

(** C4.  Baltimore is mapped to [baltimore_reference.csv]; in a data
    directory that holds only the LA file no file resolves for it, and
    the lookup answers 500 from the failed read of the mapped name, while
    an unmapped city without a match is answered with 404. *)
Theorem mapped_city_without_file_is_500 :
  listdir Demo.ref_world = Ok ["la_reference.csv"] /\
  file_mapping !! "Baltimore" = Some "baltimore_reference.csv" /\
  find_matching_file "Baltimore" ["la_reference.csv"] None = None /\
  get_reference_data Demo.ref_world "Baltimore" =
    {| status := 500;
       body := JError ("Failed to read reference data: "
                       +:+ "No such file or directory: "
                       +:+ "backend/data/baltimore_reference.csv") |} /\
  get_reference_data Demo.ref_world "Atlantis" =
    {| status := 404; body := JError "Reference data file not found for Atlantis" |}.
Proof. repeat split; reflexivity. Qed.

(** * The result cache *)

(** C5, as the code has it.  The key of the cache is the string
    [city_<str(record_id)>].  When a request has been answered with
    status 200, every later request with the same key string, so every
    later request with the same city and identifier, gets that response
    back and leaves the state, with its record of library calls, as it
    is.  A request changes no entry under another key string, and a
    response computed on a miss is in the cache when it is returned. *)
Theorem cache_keyed_by_string (L : Lib) :
  (forall city record_id,
      cache_key L city record_id = city +:+ "_" +:+ py_str (repr L) record_id) /\
  (forall W1 city1 request1 target1 id1 s0 response s1 qs W2 city2 request2 target2 id2,
      read_request request1 = Ok (target1, id1) ->
      generate_tsne L W1 city1 request1 s0 = (response, s1) ->
      status response = 200 ->
      read_request request2 = Ok (target2, id2) ->
      cache_key L city2 id2 = cache_key L city1 id1 ->
      let s2 := serve_all L qs s1 in
      generate_tsne L W2 city2 request2 s2 = (response, s2)) /\
  (forall W city request_json target_record record_id s response s' key,
      read_request request_json = Ok (target_record, record_id) ->
      generate_tsne L W city request_json s = (response, s') ->
      key <> cache_key L city record_id ->
      tsne_cache s' !! key = tsne_cache s !! key) /\
  (forall W city request_json target_record record_id s response s',
      read_request request_json = Ok (target_record, record_id) ->
      tsne_cache s !! cache_key L city record_id = None ->
      generate_tsne L W city request_json s = (response, s') ->
      status response = 200 ->
      exists Y,
        response = jsonify (JCoordinates {| coordinates := Y; recordId := record_id |}) /\
        tsne_cache s' !! cache_key L city record_id
          = Some {| coordinates := Y; recordId := record_id |}).
Proof.
  split; [reflexivity|]. split; [|split].
  - intros W1 city1 request1 target1 id1 s0 response s1 qs W2 city2 request2 target2 id2
           Hreq1 Hrun H200 Hreq2 Hkey s2.
    destruct (generate_tsne_200_stored _ _ _ _ _ _ _ _ _ Hreq1 Hrun H200)
      as (stored & -> & Hstored).
    eapply generate_tsne_hit; [exact Hreq2|].
    rewrite Hkey. subst s2. by apply serve_all_cache_mono.
  - intros W city request_json target_record record_id s response s' key Hreq Hrun Hne.
    apply generate_tsne_cache in Hrun
      as [-> | (tr & rid & X & X' & Y & Hreq' & _ & Hcomp & _)]; [done|].
    rewrite Hreq in Hreq'. injection Hreq' as <- <-.
    rewrite (computed_cache _ _ _ _ _ _ _ _ _ _ Hcomp).
    by rewrite lookup_insert_ne.
  - intros W city request_json target_record record_id s response s' Hreq Hmiss Hrun H200.
    apply generate_tsne_cases in Hrun
      as [(e & _ & -> & _) | [(tr & rid & st & Hreq' & Hhit & _)
         | (tr & rid & Hreq' & _ &
            [(_ & _ & ->) | [(e & -> & _) | (X & X' & Y & Hcomp & ->)]])]];
      try discriminate.
    + rewrite Hreq in Hreq'. injection Hreq' as <- <-. congruence.
    + rewrite Hreq in Hreq'. injection Hreq' as <- <-.
      exists Y. split; [done|].
      rewrite (computed_cache _ _ _ _ _ _ _ _ _ _ Hcomp). apply lookup_insert_eq.
Qed.

Lemma cache_keyed_by_string_witness :
  let first := generate_tsne Demo.lib Demo.world "Baltimore"
                 (Demo.body_of Demo.example_target) (initial_state 0) in
  let again := Demo.body_of (<["AGE_DON" := PInt 9]> Demo.example_target) in
  let later := {| req_world := Demo.world; req_city := "LA";
                  req_json := Demo.body_of Demo.example_target |} in
  status (fst first) = 200 /\
  let s2 := serve_all Demo.lib [later] (snd first) in
  generate_tsne Demo.lib Demo.world "Baltimore" again s2 = (fst first, s2).
Proof.
  intros first again later. split; [reflexivity|].
  destruct (cache_keyed_by_string Demo.lib) as (_ & H & _).
  apply (H Demo.world "Baltimore" (Demo.body_of Demo.example_target)
           (PDict Demo.example_target) (PInt 42) (initial_state 0) (fst first)
           (snd first) [later] Demo.world "Baltimore" again
           (PDict (<["AGE_DON" := PInt 9]> Demo.example_target)) (PInt 42));
    reflexivity.
Defined.

(** The identifiers [42] and ["42"] are distinct and have one key: after
    a request with the number, a request with the string and other
    field values is answered from the entry of the first, with the
    number as [recordId].  City [LA] with identifier ["x_y"] and city
    [LA_x] with identifier ["y"] have one key as well. *)
Lemma number_and_string_share_an_entry :
  let first := generate_tsne Demo.lib Demo.world "Baltimore"
                 (Demo.body_of Demo.example_target) (initial_state 0) in
  let other : record := {[ "PTR_SEQUENCE_NUM" := PStr "42"; "AGE_DON" := PInt 9 ]} in
  ("Baltimore", PInt 42) <> ("Baltimore", PStr "42") /\
  read_request (Demo.body_of other) = Ok (PDict other, PStr "42") /\
  cache_key Demo.lib "Baltimore" (PInt 42) = cache_key Demo.lib "Baltimore" (PStr "42") /\
  status (fst first) = 200 /\
  generate_tsne Demo.lib Demo.world "Baltimore" (Demo.body_of other) (snd first)
    = (fst first, snd first) /\
  (exists Y, body (fst first)
             = JCoordinates {| coordinates := Y; recordId := PInt 42 |}) /\
  ("LA", PStr "x_y") <> ("LA_x", PStr "y") /\
  cache_key Demo.lib "LA" (PStr "x_y") = cache_key Demo.lib "LA_x" (PStr "y").
Proof.
  intros first other. split; [discriminate|].
  split; [reflexivity|]. split; [reflexivity|]. split; [reflexivity|].
  split; [reflexivity|]. split; [eexists; reflexivity|].
  split; [discriminate | reflexivity].
Qed.

(** * The projection call *)

(** C6, as the code has it.  The projection routine is called with 2
    components, perplexity [min 30 (rows - 1)], random state 42 and 1000
    iterations on the matrix it is given, and a routine that meets its
    contract gives one 2D point per row.  Every call on record for a
    request has these parameters, is the last call of the request, which
    missed the cache, and its result is the answer: the points with
    status 200, or the message of the exception with status 500.  A
    computed response with status 200 is the result of such a call.  A
    request that misses the cache, with a target record that carries a
    sequence number which can be printed, for a city whose dataset has
    10 rows, makes one call on the assembled matrix of 11 rows with
    perplexity 10; it is answered with status 200, that sequence number
    as [recordId] and the routine's points, 11 of them under the
    contract, when the routine returns, and with status 500 when it
    raises. *)
Theorem projection_parameters (L : Lib) :
  (forall X s,
      let tsne := {| n_components := 2;
                     perplexity := Z.min 30 (Z.of_nat (length X) - 1);
                     random_state := 42;
                     n_iter := 1000 |} in
      project L X s =
        (fit_transform L tsne X,
         {| tsne_cache := tsne_cache s; rng := rng s;
            trace := trace s ++ [EvTSNE tsne X] |})) /\
  (tsne_shape L ->
   forall X s Y s',
      project L X s = (Ok Y, s') ->
      length Y = length X /\ Forall (fun pt => length pt = 2%nat) Y) /\
  (forall W city request_json s response s' evs p X,
      generate_tsne L W city request_json s = (response, s') ->
      trace s' = (trace s ++ evs)%list ->
      EvTSNE p X ∈ evs ->
      p = {| n_components := 2;
             perplexity := Z.min 30 (Z.of_nat (length X) - 1);
             random_state := 42;
             n_iter := 1000 |} /\
      last evs = Some (EvTSNE p X) /\
      exists target_record record_id,
        read_request request_json = Ok (target_record, record_id) /\
        tsne_cache s !! cache_key L city record_id = None /\
        response =
          match fit_transform L p X with
          | Ok Y => {| status := 200;
                       body := JCoordinates {| coordinates := Y;
                                               recordId := record_id |} |}
          | Raise e => {| status := 500; body := JError (exn_str e) |}
          end) /\
  (forall W city request_json target_record record_id s response s',
      read_request request_json = Ok (target_record, record_id) ->
      tsne_cache s !! cache_key L city record_id = None ->
      generate_tsne L W city request_json s = (response, s') ->
      status response = 200 ->
      exists evs X Y,
        let tsne := {| n_components := 2;
                       perplexity := Z.min 30 (Z.of_nat (length X) - 1);
                       random_state := 42;
                       n_iter := 1000 |} in
        trace s' = (trace s ++ evs)%list /\
        last evs = Some (EvTSNE tsne X) /\
        fit_transform L tsne X = Ok Y /\
        response = {| status := 200;
                      body := JCoordinates {| coordinates := Y;
                                              recordId := record_id |} |} /\
        (tsne_shape L ->
         length Y = length X /\ Forall (fun pt => length pt = 2%nat) Y)) /\
  (forall W city (d t : record) record_id city_data s,
      d !! "targetRecord" = Some (PDict t) ->
      t !! "PTR_SEQUENCE_NUM" = Some record_id ->
      tsne_cache s !! cache_key L city record_id = None ->
      stdout_print L (generating_line L city record_id) = Ok tt ->
      load_city_data W city = Ok city_data ->
      length city_data = 10%nat ->
      record_fits (get_important_features city) t = true ->
      forallb (record_fits (get_important_features city)) city_data = true ->
      let tsne := {| n_components := 2; perplexity := 10;
                     random_state := 42; n_iter := 1000 |} in
      exists X,
        assemble L (get_important_features city) (PDict t) city_data = Ok X /\
        length X = 11%nat /\
        generate_tsne L W city (Ok (PDict d)) s =
          match fit_transform L tsne X with
          | Ok Y =>
              ({| status := 200;
                  body := JCoordinates {| coordinates := Y; recordId := record_id |} |},
               {| tsne_cache := <[cache_key L city record_id :=
                                    {| coordinates := Y; recordId := record_id |}]>
                                  (tsne_cache s);
                  rng := rng s;
                  trace := trace s ++ [EvTSNE tsne X] |})
          | Raise e =>
              ({| status := 500; body := JError (exn_str e) |},
               {| tsne_cache := tsne_cache s;
                  rng := rng s;
                  trace := trace s ++ [EvTSNE tsne X] |})
          end /\
        (tsne_shape L ->
         forall Y, fit_transform L tsne X = Ok Y ->
           length Y = 11%nat /\ Forall (fun pt => length pt = 2%nat) Y)).
Proof.
  assert (Hshape2 : tsne_shape L -> forall X Y,
             fit_transform L (tsne_params X) X = Ok Y ->
             length Y = length X /\ Forall (fun pt => length pt = 2%nat) Y).
  { intros Hshape X Y HY. apply Hshape in HY as [Hlen Hpts]. split; [done|].
    eapply Forall_impl; [exact Hpts|]. simpl. intros pt Hpt. lia. }
  split; [|split; [|split; [|split]]].
  - intros X s tsne. apply project_run.
  - intros Hshape X s Y s'. rewrite project_run. intros [= HY _]. by apply Hshape2.
  - intros W city request_json s response s' evs p X Hrun Htrace Hin.
    destruct (generate_tsne_projection_call _ _ _ _ _ _ _ _ _ _ Hrun Htrace Hin)
      as (tr & rid & data & X0 & s1 & Hreq & Hmiss & _ & _ & _ & _ & _ & Hp & Hlast
          & Hresp & _).
    split; [exact Hp|]. split; [exact Hlast|].
    exists tr, rid. split; [done|]. split; [done|]. exact Hresp.
  - intros W city request_json target_record record_id s response s' Hreq Hmiss Hrun H200.
    apply generate_tsne_cases in Hrun
      as [(e & He & _) | [(tr & rid & st & Hreq' & Hhit & _)
         | (tr & rid & Hreq' & _ &
            [(_ & _ & ->) | [(e & -> & _) | (X & X' & Y & Hcomp & ->)]])]];
      try discriminate; try congruence.
    rewrite Hreq in Hreq'. injection Hreq' as <- <-.
    destruct (computed_call _ _ _ _ _ _ _ _ _ _ Hcomp) as (evs & Htrace & Hlast & _).
    destruct Hcomp as (_ & _ & _ & _ & _ & _ & _ & HY & _).
    exists evs, X', Y. split; [done|]. split; [done|]. split; [done|].
    split; [done|]. intros Hshape. by apply Hshape2.
  - intros W city d t record_id city_data s Hd Hid Hmiss Hprint Hload Hlen Ht Hdata tsne.
    pose proof (read_request_Ok d t Hd) as Hreq. rewrite Hid in Hreq.
    change (default _ (Some record_id)) with record_id in Hreq.
    destruct (assemble_fits L _ t city_data Ht Hdata) as [X HX].
    pose proof (assemble_shape _ _ _ _ _ HX) as [HlenX _]. rewrite Hlen in HlenX.
    assert (Hsample : sample L X s = (Ok X, s)).
    { apply sample_below. unfold max_points. lia. }
    assert (Hparams : tsne_params X = tsne).
    { unfold tsne_params, tsne. by rewrite HlenX. }
    exists X. split; [done|]. split; [done|]. split.
    + rewrite (generate_tsne_miss _ _ _ _ _ _ _ Hreq Hmiss).
      rewrite compute_tsne_run, Hprint, Hload.
      destruct city_data as [|r0 rest]; [discriminate|].
      rewrite HX, Hsample, Hparams.
      by destruct (fit_transform L tsne X).
    + intros Hshape Y HY. rewrite <- Hparams in HY.
      destruct (Hshape2 Hshape X Y HY) as [HlenY Hpts]. split; [lia | done].
Qed.

Lemma projection_parameters_witness :
  let tsne := {| n_components := 2; perplexity := 10;
                 random_state := 42; n_iter := 1000 |} in
  tsne_shape Demo.lib /\
  exists X Y,
    length X = 11%nat /\
    generate_tsne Demo.lib Demo.world "Baltimore"
        (Demo.body_of Demo.example_target) (initial_state 0) =
      ({| status := 200;
          body := JCoordinates {| coordinates := Y; recordId := PInt 42 |} |},
       {| tsne_cache := {[ "Baltimore_42" :=
                             {| coordinates := Y; recordId := PInt 42 |} ]};
          rng := 0%N;
          trace := [EvTSNE tsne X] |}) /\
    length Y = 11%nat /\
    Forall (fun pt => length pt = 2%nat) Y.
Proof.
  intros tsne. split; [exact demo_tsne_shape|].
  destruct (projection_parameters Demo.lib) as (_ & _ & _ & _ & H).
  destruct (H Demo.world "Baltimore"
              {[ "targetRecord" := PDict Demo.example_target ]} Demo.example_target
              (PInt 42) (Demo.rows 10) (initial_state 0))
    as (X & HX & HlenX & Hrun & Hpts); try reflexivity.
  fold tsne in Hrun, Hpts.
  destruct (fit_transform Demo.lib tsne X) as [Y|e] eqn:HY.
  - destruct (Hpts demo_tsne_shape Y eq_refl) as [HlenY H2].
    exists X, Y. split; [exact HlenX|]. split; [exact Hrun|]. split; assumption.
  - simpl in HY. unfold Demo.first_columns in HY. rewrite HlenX in HY.
    vm_compute in HY. discriminate.
Defined.

(** The example request when the key is already stored, and when the
    routine raises.  The entry was computed while the Baltimore dataset
    had 3 rows: against the dataset of 10 rows the request is answered
    with status 200 and the 4 stored points, and no call is made.  With
    a routine that raises the answer is 500. *)
Lemma stored_points_and_failed_projection :
  let example := Demo.body_of Demo.example_target in
  let first := generate_tsne Demo.lib Demo.world_small "Baltimore" example
                 (initial_state 0) in
  let second := generate_tsne Demo.lib Demo.world "Baltimore" example (snd first) in
  let failed := generate_tsne Demo.lib_raising Demo.world "Baltimore" example
                  (initial_state 0) in
  known_city "Baltimore" /\
  load_city_data Demo.world_small "Baltimore" = Ok (Demo.rows 3) /\
  load_city_data Demo.world "Baltimore" = Ok (Demo.rows 10) /\
  length (Demo.rows 10) = 10%nat /\
  status (fst first) = 200 /\
  (exists Y,
      fst second = {| status := 200;
                      body := JCoordinates {| coordinates := Y;
                                              recordId := PInt 42 |} |} /\
      length Y = 4%nat) /\
  snd second = snd first /\
  fst failed = {| status := 500; body := JError "projection failed" |}.
Proof.
  intros example first second failed.
  split; [by left|]. split; [reflexivity|]. split; [reflexivity|].
  split; [reflexivity|]. split; [reflexivity|].
  split; [eexists; split; vm_compute; reflexivity|].
  split; reflexivity.
Qed.

(** * Cities without data *)

(** C7, as the code has it.  For a city other than Baltimore, Boston and
    LA the feature list and the dataset are empty, and a request whose
    body carries a [targetRecord] dictionary, whose key is not in the
    cache and whose line [print] can write is answered with status 404
    and the error body naming the city, the state untouched; when
    [print] raises on the line the answer is 500 with the message of
    the exception. *)
Theorem unknown_city_is_404 (L : Lib) (W : World) (city : string) :
  ~ known_city city ->
  get_important_features city = [] /\
  load_city_data W city = Ok [] /\
  (forall request_json target_record record_id s,
      read_request request_json = Ok (target_record, record_id) ->
      tsne_cache s !! cache_key L city record_id = None ->
      stdout_print L (generating_line L city record_id) = Ok tt ->
      generate_tsne L W city request_json s =
        ({| status := 404; body := JError ("No data available for " +:+ city) |}, s)) /\
  (forall request_json target_record record_id s e,
      read_request request_json = Ok (target_record, record_id) ->
      tsne_cache s !! cache_key L city record_id = None ->
      stdout_print L (generating_line L city record_id) = Raise e ->
      generate_tsne L W city request_json s =
        ({| status := 500; body := JError (exn_str e) |}, s)).
Proof.
  intros Hcity. destruct (unknown_city_unmapped city Hcity) as (Hf & Hm & _).
  assert (Hload : load_city_data W city = Ok []).
  { unfold load_city_data, load_city_data_try. by rewrite Hm. }
  split; [|split; [|split]].
  - unfold get_important_features. by rewrite Hf.
  - exact Hload.
  - intros request_json target_record record_id s Hreq Hmiss Hprint.
    rewrite (generate_tsne_miss _ _ _ _ _ _ _ Hreq Hmiss).
    by rewrite (compute_tsne_no_data _ _ _ _ _ _ Hprint Hload).
  - intros request_json target_record record_id s e Hreq Hmiss Hprint.
    rewrite (generate_tsne_miss _ _ _ _ _ _ _ Hreq Hmiss).
    by rewrite (compute_tsne_unprintable _ _ _ _ _ _ _ Hprint).
Qed.

Lemma unknown_city_is_404_witness :
  ~ known_city "Atlantis" /\
  generate_tsne Demo.lib Demo.world "Atlantis" (Demo.body_of Demo.example_target)
      (initial_state 0) =
    ({| status := 404; body := JError "No data available for Atlantis" |},
     initial_state 0).
Proof.
  assert (H : ~ known_city "Atlantis").
  { intros [H | [H | H]]; discriminate. }
  split; [exact H|].
  destruct (unknown_city_is_404 Demo.lib Demo.world "Atlantis" H) as (_ & _ & Hrun & _).
  apply (Hrun _ (PDict Demo.example_target) (PInt 42)); reflexivity.
Defined.

(** Three requests for cities outside the configured three that are not
    answered with 404: a body without [targetRecord] gives 500; an
    identifier that is a lone surrogate cannot be written to a UTF-8
    standard output, and gives 500; and the key of city [LA_x] with
    identifier ["y"] is the key of city [LA] with identifier ["x_y"], so
    after that request for LA the one for [LA_x] gives 200. *)
Lemma unknown_city_500_and_200 :
  let la_target : record := {[ "PTR_SEQUENCE_NUM" := PStr "x_y" ]} in
  let other_target : record := {[ "PTR_SEQUENCE_NUM" := PStr "y" ]} in
  let surrogate_target : record := {[ "PTR_SEQUENCE_NUM" := PStr Demo.lone_surrogate ]} in
  let first := generate_tsne Demo.lib Demo.world_la "LA" (Demo.body_of la_target)
                 (initial_state 0) in
  let unprintable := generate_tsne Demo.lib Demo.world "Atlantis"
                       (Demo.body_of surrogate_target) (initial_state 0) in
  ~ known_city "Atlantis" /\
  generate_tsne Demo.lib Demo.world "Atlantis" (Ok (PDict ∅)) (initial_state 0) =
    ({| status := 500; body := JError "'NoneType' object has no attribute 'get'" |},
     initial_state 0) /\
  read_request (Demo.body_of surrogate_target)
    = Ok (PDict surrogate_target, PStr Demo.lone_surrogate) /\
  status (fst unprintable) = 500 /\
  snd unprintable = initial_state 0 /\
  ~ known_city "LA_x" /\
  status (fst first) = 200 /\
  generate_tsne Demo.lib Demo.world_la "LA_x" (Demo.body_of other_target) (snd first)
    = (fst first, snd first).
Proof.
  intros la_target other_target surrogate_target first unprintable.
  split; [intros [H | [H | H]]; discriminate|].
  split; [reflexivity|]. split; [reflexivity|].
  split; [reflexivity|]. split; [reflexivity|].
  split; [intros [H | [H | H]]; discriminate|].
  split; reflexivity.
Qed.

(** * Loading a dataset *)

(** C8.  [load_city_data] returns a list for every city and file system:
    the empty list for a city that is not mapped, for a file that does
    not exist, and whenever reading the file raises.  A request that
    reaches the loading step (a target record was read, its key is not
    cached and its line was printed) when the read raises is then
    answered with status 404 and ['No data available for <city>'], the
    state untouched; every other request for a city whose read raises
    ends before the loading step: with status 500 when the body cannot
    be read or the line cannot be printed, and with the stored response
    when the key is cached. *)
Theorem load_city_data_never_raises (W : World) (city : string) :
  (exists records, load_city_data W city = Ok records) /\
  (city_file_map !! city = None -> load_city_data W city = Ok []) /\
  (forall path,
      city_file_map !! city = Some path ->
      path_exists W path = false ->
      load_city_data W city = Ok []) /\
  (forall path e,
      city_file_map !! city = Some path ->
      path_exists W path = true ->
      read_csv W path = Raise e ->
      load_city_data_try W city = Raise e /\ load_city_data W city = Ok []) /\
  (forall L e request_json target_record record_id s,
      load_city_data_try W city = Raise e ->
      read_request request_json = Ok (target_record, record_id) ->
      tsne_cache s !! cache_key L city record_id = None ->
      stdout_print L (generating_line L city record_id) = Ok tt ->
      generate_tsne L W city request_json s =
        ({| status := 404; body := JError ("No data available for " +:+ city) |}, s)) /\
  (forall L e request_json s response s',
      load_city_data_try W city = Raise e ->
      generate_tsne L W city request_json s = (response, s') ->
      s' = s /\
      (response = {| status := 404; body := JError ("No data available for " +:+ city) |}
       \/ (exists e',
             read_request request_json = Raise e' /\
             response = {| status := 500; body := JError (exn_str e') |})
       \/ (exists target_record record_id stored,
             read_request request_json = Ok (target_record, record_id) /\
             tsne_cache s !! cache_key L city record_id = Some stored /\
             response = jsonify (JCoordinates stored))
       \/ (exists target_record record_id e',
             read_request request_json = Ok (target_record, record_id) /\
             tsne_cache s !! cache_key L city record_id = None /\
             stdout_print L (generating_line L city record_id) = Raise e' /\
             response = {| status := 500; body := JError (exn_str e') |}))).
Proof.
  split; [apply load_city_data_Ok|]. split; [|split; [|split; [|split]]].
  - intros Hmap. unfold load_city_data, load_city_data_try. by rewrite Hmap.
  - intros path Hmap Hex. unfold load_city_data, load_city_data_try.
    rewrite Hmap, (city_file_map_truthy _ _ Hmap). simpl. by rewrite Hex.
  - intros path e Hmap Hex Hread.
    assert (Htry : load_city_data_try W city = Raise e).
    { unfold load_city_data_try.
      rewrite Hmap, (city_file_map_truthy _ _ Hmap). simpl. by rewrite Hex, Hread. }
    split; [exact Htry|]. unfold load_city_data. by rewrite Htry.
  - intros L e request_json target_record record_id s Htry Hreq Hmiss Hprint.
    assert (Hload : load_city_data W city = Ok []).
    { unfold load_city_data. by rewrite Htry. }
    rewrite (generate_tsne_miss _ _ _ _ _ _ _ Hreq Hmiss).
    by rewrite (compute_tsne_no_data _ _ _ _ _ _ Hprint Hload).
  - intros L e request_json s response s' Htry Hrun.
    assert (Hload : load_city_data W city = Ok []).
    { unfold load_city_data. by rewrite Htry. }
    destruct (read_request request_json) as [[tr rid]|e'] eqn:Hreq.
    2:{ rewrite (generate_tsne_bad_request _ _ _ _ _ _ Hreq) in Hrun.
        injection Hrun as <- <-. split; [done|]. right; left. eauto. }
    destruct (tsne_cache s !! cache_key L city rid) as [stored|] eqn:Hkey.
    { rewrite (generate_tsne_hit _ _ _ _ _ _ _ _ Hreq Hkey) in Hrun.
      injection Hrun as <- <-. split; [done|]. right; right; left. eauto 10. }
    rewrite (generate_tsne_miss _ _ _ _ _ _ _ Hreq Hkey) in Hrun.
    destruct (stdout_print L (generating_line L city rid)) as [[]|e'] eqn:Hprint.
    + rewrite (compute_tsne_no_data _ _ _ _ _ _ Hprint Hload) in Hrun.
      injection Hrun as <- <-. split; [done|]. by left.
    + rewrite (compute_tsne_unprintable _ _ _ _ _ _ _ Hprint) in Hrun.
      injection Hrun as <- <-. split; [done|]. right; right; right. eauto 10.
Qed.

Lemma load_city_data_never_raises_witness :
  read_csv Demo.world "data/la_reference.csv" = Raise (OtherError "Error tokenizing data") /\
  load_city_data_try Demo.world "LA" = Raise (OtherError "Error tokenizing data") /\
  load_city_data Demo.world "LA" = Ok [] /\
  generate_tsne Demo.lib Demo.world "LA" (Demo.body_of Demo.example_target)
      (initial_state 0) =
    ({| status := 404; body := JError "No data available for LA" |}, initial_state 0).
Proof.
  destruct (load_city_data_never_raises Demo.world "LA")
    as (_ & _ & _ & Hread & Hrun & _).
  destruct (Hread "data/la_reference.csv" (OtherError "Error tokenizing data"))
    as [Htry Hload]; [reflexivity | reflexivity | reflexivity |].
  split; [reflexivity|]. split; [exact Htry|]. split; [exact Hload|].
  apply (Hrun Demo.lib (OtherError "Error tokenizing data") _
           (PDict Demo.example_target) (PInt 42));
    [exact Htry | reflexivity | reflexivity | reflexivity].
Defined.

(** * Requests without a sequence number *)

(** C9, as the code has it.  A target record without
    [PTR_SEQUENCE_NUM] has the identifier ['unknown'] and the key
    [<city>_unknown], whatever its other fields.  A response computed for
    it carries ['unknown'] as [recordId] and is stored under that key;
    once such a request has been answered with status 200, every later
    request without a sequence number for the same city gets the same
    response back, whatever its field values and the files on disk, and
    the state stays as it is.  For a configured city, in every state the
    service can reach, a response with status 200 to such a request
    carries ['unknown'], computed or cached. *)
Theorem missing_identifier_is_unknown (L : Lib) (city : string) (d t : record) :
  d !! "targetRecord" = Some (PDict t) ->
  t !! "PTR_SEQUENCE_NUM" = None ->
  read_request (Ok (PDict d)) = Ok (PDict t, PStr "unknown") /\
  cache_key L city (PStr "unknown") = city +:+ "_unknown" /\
  (forall W s response s',
      tsne_cache s !! (city +:+ "_unknown") = None ->
      generate_tsne L W city (Ok (PDict d)) s = (response, s') ->
      status response = 200 ->
      exists Y,
        response = jsonify (JCoordinates {| coordinates := Y;
                                            recordId := PStr "unknown" |}) /\
        tsne_cache s' !! (city +:+ "_unknown")
          = Some {| coordinates := Y; recordId := PStr "unknown" |}) /\
  (forall W s response s' qs W2 (d2 t2 : record),
      generate_tsne L W city (Ok (PDict d)) s = (response, s') ->
      status response = 200 ->
      d2 !! "targetRecord" = Some (PDict t2) ->
      t2 !! "PTR_SEQUENCE_NUM" = None ->
      let s2 := serve_all L qs s' in
      generate_tsne L W2 city (Ok (PDict d2)) s2 = (response, s2)) /\
  (known_city city -> repr_plain L ->
   forall W s response s',
      reachable L s ->
      generate_tsne L W city (Ok (PDict d)) s = (response, s') ->
      status response = 200 ->
      exists Y,
        response = jsonify (JCoordinates {| coordinates := Y;
                                            recordId := PStr "unknown" |})).
Proof.
  intros Hd Ht.
  assert (Hreq : read_request (Ok (PDict d)) = Ok (PDict t, PStr "unknown")).
  { rewrite (read_request_Ok d t Hd), Ht. reflexivity. }
  assert (Hkey : cache_key L city (PStr "unknown") = city +:+ "_unknown")
    by reflexivity.
  split; [exact Hreq|]. split; [exact Hkey|]. split; [|split].
  - intros W s response s' Hmiss Hrun H200. rewrite <- Hkey in *.
    apply generate_tsne_cases in Hrun
      as [(e & _ & -> & _) | [(tr & rid & st & Hreq' & Hhit & _)
         | (tr & rid & Hreq' & _ &
            [(_ & _ & ->) | [(e & -> & _) | (X & X' & Y & Hcomp & ->)]])]];
      try discriminate.
    + rewrite Hreq in Hreq'. injection Hreq' as <- <-. congruence.
    + rewrite Hreq in Hreq'. injection Hreq' as <- <-.
      exists Y. split; [done|].
      rewrite (computed_cache _ _ _ _ _ _ _ _ _ _ Hcomp). apply lookup_insert_eq.
  - intros W s response s' qs W2 d2 t2 Hrun H200 Hd2 Ht2 s2.
    destruct (generate_tsne_200_stored _ _ _ _ _ _ _ _ _ Hreq Hrun H200)
      as (stored & -> & Hstored).
    eapply generate_tsne_hit.
    + rewrite (read_request_Ok d2 t2 Hd2), Ht2. reflexivity.
    + subst s2. by apply serve_all_cache_mono.
  - intros Hcity Hrepr W s response s' Hreach Hrun H200.
    apply generate_tsne_cases in Hrun
      as [(e & _ & -> & _) | [(tr & rid & st & Hreq' & Hhit & -> & _)
         | (tr & rid & Hreq' & _ &
            [(_ & _ & ->) | [(e & -> & _) | (X & X' & Y & Hcomp & ->)]])]];
      try discriminate.
    + rewrite Hreq in Hreq'. injection Hreq' as <- <-.
      destruct (reachable_cache_keys L s _ st Hreach Hhit) as (c & Hc & Hsame).
      apply (known_key_split city c "unknown" _ Hcity Hc) in Hsame as [_ Hid].
      symmetry in Hid. apply (py_str_unknown L _ Hrepr) in Hid.
      destruct st as [Y rid]. simpl in Hid. subst rid. by exists Y.
    + rewrite Hreq in Hreq'. injection Hreq' as <- <-. by exists Y.
Qed.

Lemma missing_identifier_is_unknown_witness :
  let t : record := {[ "AGE_DON" := PStr "55" ]} in
  let d : record := {[ "targetRecord" := PDict t ]} in
  let t2 : record := {[ "AGE_DON" := PInt 9; "KDPI" := PStr "0.4" ]} in
  let d2 : record := {[ "targetRecord" := PDict t2 ]} in
  let first := generate_tsne Demo.lib Demo.world "Baltimore" (Ok (PDict d))
                 (initial_state 0) in
  d !! "targetRecord" = Some (PDict t) /\
  t !! "PTR_SEQUENCE_NUM" = None /\
  known_city "Baltimore" /\
  repr_plain Demo.lib /\
  reachable Demo.lib (initial_state 0) /\
  status (fst first) = 200 /\
  (exists Y, fst first = jsonify (JCoordinates {| coordinates := Y;
                                                  recordId := PStr "unknown" |})) /\
  generate_tsne Demo.lib Demo.world_la "Baltimore" (Ok (PDict d2)) (snd first)
    = (fst first, snd first).
Proof.
  intros t d t2 d2 first.
  assert (Hd : d !! "targetRecord" = Some (PDict t)) by reflexivity.
  assert (Ht : t !! "PTR_SEQUENCE_NUM" = None) by reflexivity.
  assert (Hcity : known_city "Baltimore") by (left; reflexivity).
  assert (Hrepr : repr_plain Demo.lib) by (intros v; discriminate).
  assert (Hreach : reachable Demo.lib (initial_state 0)) by constructor.
  assert (H200 : status (fst first) = 200) by reflexivity.
  destruct (missing_identifier_is_unknown Demo.lib "Baltimore" d t Hd Ht)
    as (_ & _ & _ & Hlater & Hany).
  split; [exact Hd|]. split; [exact Ht|]. split; [exact Hcity|].
  split; [exact Hrepr|]. split; [exact Hreach|]. split; [exact H200|]. split.
  - apply (Hany Hcity Hrepr Demo.world (initial_state 0) (fst first) (snd first));
      [exact Hreach | apply surjective_pairing | exact H200].
  - apply (Hlater Demo.world (initial_state 0) (fst first) (snd first) []
             Demo.world_la d2 t2); [apply surjective_pairing | exact H200 | | ];
      reflexivity.
Defined.

(** City [LA_x] is not configured and its request has no sequence number;
    its key [LA_x_unknown] is the key of city [LA] with the identifier
    ["x_unknown"], so after that request for LA it is answered with the
    stored response, whose [recordId] is ["x_unknown"]. *)
Lemma unconfigured_city_gets_other_identifier :
  let la_target : record := {[ "PTR_SEQUENCE_NUM" := PStr "x_unknown" ]} in
  let t : record := {[ "AGE_DON" := PStr "55" ]} in
  let d : record := {[ "targetRecord" := PDict t ]} in
  let first := generate_tsne Demo.lib Demo.world_la "LA" (Demo.body_of la_target)
                 (initial_state 0) in
  let second := generate_tsne Demo.lib Demo.world_la "LA_x" (Ok (PDict d))
                  (snd first) in
  t !! "PTR_SEQUENCE_NUM" = None /\
  read_request (Ok (PDict d)) = Ok (PDict t, PStr "unknown") /\
  reachable Demo.lib (snd first) /\
  status (fst second) = 200 /\
  (exists Y, body (fst second)
             = JCoordinates {| coordinates := Y; recordId := PStr "x_unknown" |}) /\
  PStr "x_unknown" <> PStr "unknown".
Proof.
  intros la_target t d first second.
  split; [reflexivity|]. split; [reflexivity|]. split.
  { apply (reachable_serve Demo.lib
             {| req_world := Demo.world_la; req_city := "LA";
                req_json := Demo.body_of la_target |} (initial_state 0)).
    constructor. }
  split; [reflexivity|]. split; [eexists; reflexivity | discriminate].
Qed.

(** * Error responses *)

(** C10.  A body without [targetRecord], or with a null one, is answered
    with status 500 and an error body, the state untouched.  Every
    response other than 200 is a 404 or a 500 with an error body and
    leaves the cache as it was; the cache changes only when a response is
    computed and returned with status 200. *)
Theorem errors_leave_cache_unchanged (L : Lib) :
  (forall W city (d : record) s,
      d !! "targetRecord" = None \/ d !! "targetRecord" = Some PNone ->
      generate_tsne L W city (Ok (PDict d)) s =
        ({| status := 500;
            body := JError "'NoneType' object has no attribute 'get'" |}, s)) /\
  (forall W city request_json s response s',
      generate_tsne L W city request_json s = (response, s') ->
      status response <> 200 ->
      (status response = 404 \/ status response = 500) /\
      (exists msg, body response = JError msg) /\
      tsne_cache s' = tsne_cache s) /\
  (forall W city request_json s response s',
      generate_tsne L W city request_json s = (response, s') ->
      tsne_cache s' <> tsne_cache s ->
      status response = 200 /\
      exists target_record record_id X X' Y,
        read_request request_json = Ok (target_record, record_id) /\
        tsne_cache s !! cache_key L city record_id = None /\
        computed L W city target_record record_id s X X' Y s').
Proof.
  split; [|split].
  - intros W city d s Hd.
    apply (generate_tsne_bad_request L W city (Ok (PDict d))
             (AttributeError "'NoneType' object has no attribute 'get'") s).
    unfold read_request. unfold_monad. simpl.
    destruct Hd as [-> | ->]; reflexivity.
  - intros W city request_json s response s' Hrun Hstatus.
    apply generate_tsne_cases in Hrun
      as [(e & _ & -> & ->) | [(tr & rid & st & _ & _ & -> & ->)
         | (tr & rid & _ & _ &
            [(_ & -> & ->) | [(e & -> & Hc) | (X & X' & Y & _ & ->)]])]];
      simpl in *; try done; eauto 10.
  - intros W city request_json s response s' Hrun Hchanged.
    apply generate_tsne_cache in Hrun
      as [Heq | (tr & rid & X & X' & Y & Hreq & Hmiss & Hcomp & ->)]; [done|].
    split; [reflexivity|]. exists tr, rid, X, X', Y. auto.
Qed.

Lemma errors_leave_cache_unchanged_witness :
  let first := generate_tsne Demo.lib Demo.world "Baltimore"
                 (Demo.body_of Demo.example_target) (initial_state 0) in
  let empty_body : record := ∅ in
  empty_body !! "targetRecord" = None /\
  generate_tsne Demo.lib Demo.world "Baltimore" (Ok (PDict empty_body)) (snd first) =
    ({| status := 500;
        body := JError "'NoneType' object has no attribute 'get'" |}, snd first) /\
  tsne_cache (snd first) <> tsne_cache (initial_state 0) /\
  status (fst first) = 200.
Proof.
  intros first empty_body.
  destruct (errors_leave_cache_unchanged Demo.lib) as (H1 & _ & H3).
  assert (Hd : empty_body !! "targetRecord" = None) by reflexivity.
  assert (Hc : tsne_cache (snd first) <> tsne_cache (initial_state 0)).
  { intros Heq.
    assert (tsne_cache (snd first) !! "Baltimore_42" = None) as Hk
      by (rewrite Heq; reflexivity).
    vm_compute in Hk. discriminate. }
  split; [exact Hd|]. split; [|split; [exact Hc|]].
  - apply H1. by left.
  - apply (H3 Demo.world "Baltimore" (Demo.body_of Demo.example_target)
             (initial_state 0) (fst first) (snd first) (surjective_pairing _) Hc).
Defined.

(** * More on the reference-data lookup *)

Lemma prefix_app (sub s : string) :
  String.prefix sub s = true <-> exists post, s = sub +:+ post.
Proof.
  revert s. induction sub as [|c sub IH]; intros s.
  - split; [intros _; by exists s | by destruct s].
  - destruct s as [|c' s]; simpl;
      [split; [done | intros [post H]; discriminate]|].
    destruct (Ascii.ascii_dec c c') as [<- | Hne].
    + rewrite IH. split; intros [post H]; exists post; [by rewrite H|].
      by injection H.
    + split; [done|]. intros [post H]. injection H as H _. congruence.
Qed.

Lemma contains_app (sub s : string) :
  contains sub s = true <-> exists pre post, s = pre +:+ sub +:+ post.
Proof.
  induction s as [|c s IH].
  - change (contains sub "") with (String.prefix sub "" || false).
    rewrite orb_false_r, prefix_app. split.
    + intros [post H]. by exists "", post.
    + intros ([|c pre] & post & H); [by exists post | discriminate].
  - change (contains sub (String c s))
      with (String.prefix sub (String c s) || contains sub s).
    rewrite orb_true_iff, prefix_app, IH. split.
    + intros [[post H] | (pre & post & H)].
      * by exists "", post.
      * exists (String c pre), post. simpl. by rewrite H.
    + intros ([|c' pre] & post & H).
      * left. by exists post.
      * right. simpl in H. injection H as _ H. by exists pre, post.
Qed.

Lemma substring_all (s : string) : substring 0 (String.length s) s = s.
Proof. induction s as [|c s IH]; simpl; [done | by rewrite IH]. Qed.

Lemma substring_app_r (pre suffix : string) :
  substring (String.length pre) (String.length suffix) (pre +:+ suffix) = suffix.
Proof. induction pre as [|c pre IH]; simpl; [apply substring_all | done]. Qed.

Lemma substring_split (s : string) (m k : nat) :
  (m + k = String.length s)%nat ->
  s = substring 0 m s +:+ substring m k s.
Proof.
  revert m. induction s as [|c s IH]; intros m H; simpl in H.
  - assert (m = 0%nat) as -> by lia. assert (k = 0%nat) as -> by lia. done.
  - destruct m as [|m].
    + destruct k as [|k]; [lia|].
      assert (k = String.length s) as -> by lia.
      simpl. by rewrite substring_all.
    + transitivity (String c (substring 0 m s +:+ substring m k s)); [|done].
      f_equal. apply IH. lia.
Qed.

Lemma length_app_string (s1 s2 : string) :
  String.length (s1 +:+ s2) = (String.length s1 + String.length s2)%nat.
Proof. induction s1 as [|c s1 IH]; simpl; [done | by rewrite IH]. Qed.

Lemma endswith_app (s suffix : string) :
  endswith s suffix = true <-> exists pre, s = pre +:+ suffix.
Proof.
  unfold endswith. rewrite andb_true_iff, Nat.leb_le, String.eqb_eq. split.
  - intros [Hle H]. exists (substring 0 (String.length s - String.length suffix) s).
    pose proof (substring_split s (String.length s - String.length suffix)
                  (String.length suffix) ltac:(lia)) as Hs.
    by rewrite H in Hs.
  - intros [pre ->]. rewrite length_app_string. split; [lia|].
    replace (String.length pre + String.length suffix - String.length suffix)%nat
      with (String.length pre) by lia.
    apply substring_app_r.
Qed.

Lemma file_matches_nonempty (city f : string) :
  file_matches city f = true -> truthy (Some f) = true.
Proof. destruct f; [|done]. unfold file_matches. simpl. by rewrite andb_false_r. Qed.


Lemma find_matching_file_inv (city : string) (files : list string) (o : option string) :
  (find_matching_file city files o = o /\
   Forall (fun g => file_matches city g = false) files)
  \/ (exists pre f post,
        files = (pre ++ f :: post)%list /\
        Forall (fun g => file_matches city g = false) pre /\
        file_matches city f = true /\
        find_matching_file city files o = Some f).
Proof.
  induction files as [|g files IH]; simpl.
  - left. split; [done | constructor].
  - fold (file_matches city g). destruct (file_matches city g) eqn:Hg.
    + right. exists [], g, files. repeat split; [constructor | done].
    + destruct IH as [[H Hall] | (pre & f & post & -> & Hpre & Hf & H)].
      * left. split; [done | by constructor].
      * right. exists (g :: pre), f, post. repeat split; try done. by constructor.
Qed.

Lemma ascii_listed (a : ascii) : In a (map ascii_of_nat (seq 0 256)).
Proof.
  apply in_map_iff. exists (nat_of_ascii a). split; [apply ascii_nat_embedding|].
  apply in_seq. pose proof (nat_ascii_bounded a). lia.
Qed.

Lemma same_letter_lower (a b : ascii) :
  same_letter a b = true <-> lower_ascii a = lower_ascii b.
Proof.
  assert (Hall : forallb (fun a =>
                   forallb (fun b =>
                     Bool.eqb (same_letter a b)
                              (Ascii.eqb (lower_ascii a) (lower_ascii b)))
                     (map ascii_of_nat (seq 0 256)))
                   (map ascii_of_nat (seq 0 256)) = true)
    by (vm_compute; reflexivity).
  rewrite forallb_forall in Hall. specialize (Hall a (ascii_listed a)).
  rewrite forallb_forall in Hall. specialize (Hall b (ascii_listed b)).
  apply Bool.eqb_prop in Hall. rewrite Hall. apply Ascii.eqb_eq.
Qed.

Lemma same_text_lower (s t : string) :
  same_text s t = true <-> lower s = lower t.
Proof.
  revert t. induction s as [|a s IH]; intros [|b t]; simpl; try done.
  rewrite andb_true_iff, same_letter_lower, IH. split.
  - by intros [-> ->].
  - intros [= H1 H2]. done.
Qed.

Lemma lower_app (a b : string) : lower (a +:+ b) = lower a +:+ lower b.
Proof. induction a as [|c a IH]; simpl; [done|]. by rewrite IH. Qed.

Lemma lower_app_inv (f a b : string) :
  lower f = a +:+ b ->
  exists a' b', f = a' +:+ b' /\ lower a' = a /\ lower b' = b.
Proof.
  revert f. induction a as [|c a IH]; intros f H.
  - exists "", f. done.
  - destruct f as [|c' f]; [discriminate|]. simpl in H. injection H as Hc Hf.
    destruct (IH f Hf) as (a' & b' & -> & <- & <-).
    exists (String c' a'), b'. simpl. by rewrite Hc.
Qed.

(** X1.  For a city and a file name of ASCII characters, where [lower] is
    [str.lower()]: the fallback test accepts the file name exactly when
    it contains the city and ends in [.csv], both up to the case of
    letters; names that differ in the case of letters only are treated
    alike. *)
Theorem file_matches_spec (city f : string) :
  is_ascii city = true ->
  is_ascii f = true ->
  (file_matches city f = true <->
   (exists pre mid post, f = pre +:+ mid +:+ post /\ same_text mid city = true) /\
   (exists base ext, f = base +:+ ext /\ same_text ext ".csv" = true)) /\
  (forall city' f',
      is_ascii city' = true ->
      is_ascii f' = true ->
      same_text city' city = true ->
      same_text f' f = true ->
      file_matches city' f' = file_matches city f).
Proof.
  intros _ _. split.
  - unfold file_matches. rewrite andb_true_iff, contains_app, endswith_app. split.
    + intros [(pre & post & Hc) (base & He)]. split.
      * apply lower_app_inv in Hc as (pre' & rest & -> & _ & Hrest).
        apply lower_app_inv in Hrest as (mid & post' & -> & Hmid & _).
        exists pre', mid, post'. split; [done|]. by apply same_text_lower.
      * apply lower_app_inv in He as (base' & ext & -> & _ & Hext).
        exists base', ext. split; [done|]. by apply same_text_lower.
    + intros [(pre & mid & post & -> & Hmid) (base & ext & He & Hext)]. split.
      * apply same_text_lower in Hmid. exists (lower pre), (lower post).
        by rewrite !lower_app, Hmid.
      * apply same_text_lower in Hext. exists (lower base).
        by rewrite He, lower_app, Hext.
  - intros city' f' _ _ Hc Hf. apply same_text_lower in Hc, Hf.
    unfold file_matches. by rewrite Hc, Hf.
Qed.

Lemma file_matches_spec_witness :
  is_ascii "Baltimore" = true /\
  is_ascii "BALTIMORE_2020.CSV" = true /\
  file_matches "Baltimore" "BALTIMORE_2020.CSV" = true /\
  file_matches "BALTIMORE" "baltimore_2020.csv" = true.
Proof.
  destruct (file_matches_spec "Baltimore" "BALTIMORE_2020.CSV" eq_refl eq_refl)
    as ([_ H1] & H2).
  assert (H : file_matches "Baltimore" "BALTIMORE_2020.CSV" = true).
  { apply H1. split.
    - by exists "", "BALTIMORE", "_2020.CSV".
    - by exists "BALTIMORE_2020", ".CSV". }
  split; [reflexivity|]. split; [reflexivity|]. split; [exact H|].
  rewrite <- H. apply H2; reflexivity.
Defined.

(** The file name that [get_reference_data] reads, once chosen. *)
Lemma get_reference_data_chosen (W : RefWorld) (city name : string) (files : list string) :
  listdir W = Ok files ->
  (if negb (truthy (file_mapping !! city))
      || negb (bool_decide (default "" (file_mapping !! city) ∈ files))
   then find_matching_file city files (file_mapping !! city)
   else file_mapping !! city) = Some name ->
  truthy (Some name) = true ->
  get_reference_data W city = read_response W name.
Proof.
  intros Hdir Hchosen Htruthy. unfold get_reference_data, read_response.
  rewrite Hdir. cbv zeta. rewrite Hchosen, Htruthy. done.
Qed.


Lemma mapped_and_listed (city name : string) (files : list string) :
  file_mapping !! city = Some name ->
  name ∈ files ->
  negb (truthy (file_mapping !! city))
  || negb (bool_decide (default "" (file_mapping !! city) ∈ files)) = false.
Proof.
  intros Hname Hin. rewrite Hname, (file_mapping_truthy _ _ Hname).
  change (default "" (Some name)) with name.
  by rewrite bool_decide_eq_true_2.
Qed.



(** X3.  The mapped name of a city is read whenever the listing holds
    it, whatever other files are listed: the answer is its rows with
    status 200, or 500 when reading it fails. *)
Theorem mapped_file_is_read (W : RefWorld) (city name : string) (files : list string) :
  listdir W = Ok files ->
  file_mapping !! city = Some name ->
  name ∈ files ->
  get_reference_data W city = read_response W name.
Proof.
  intros Hdir Hname Hin.
  apply (get_reference_data_chosen W city name _ Hdir);
    [|by eapply file_mapping_truthy].
  by rewrite (mapped_and_listed _ _ _ Hname Hin).
Qed.

Lemma mapped_file_is_read_witness :
  listdir Demo.ref_world = Ok ["la_reference.csv"] /\
  file_mapping !! "LA" = Some "la_reference.csv" /\
  "la_reference.csv" ∈ ["la_reference.csv"] /\
  get_reference_data Demo.ref_world "LA" = jsonify (JRecords (Demo.rows 3)).
Proof.
  assert (H1 : listdir Demo.ref_world = Ok ["la_reference.csv"]) by reflexivity.
  assert (H2 : file_mapping !! "LA" = Some "la_reference.csv") by reflexivity.
  assert (H3 : "la_reference.csv" ∈ ["la_reference.csv"]) by (by left).
  split; [exact H1|]. split; [exact H2|]. split; [exact H3|].
  rewrite (mapped_file_is_read Demo.ref_world "LA" "la_reference.csv" _ H1 H2 H3).
  reflexivity.
Defined.

(** X4.  The lookup answers 404 exactly when the directory can be
    listed, the city has no mapped name and no listed file passes the
    fallback test; a city with a mapped name is never answered 404.  A
    directory that cannot be listed gives 500 for every city. *)
Theorem reference_404_iff (W : RefWorld) (city : string) :
  (status (get_reference_data W city) = 404 <->
   exists files,
     listdir W = Ok files /\
     file_mapping !! city = None /\
     Forall (fun g => file_matches city g = false) files) /\
  (is_Some (file_mapping !! city) -> status (get_reference_data W city) <> 404) /\
  (forall e, listdir W = Raise e ->
     get_reference_data W city =
       {| status := 500; body := JError ("Error listing files: " +:+ exn_str e) |}).
Proof.
  assert (Hread : forall name, status (read_response W name) <> 404).
  { intros name. unfold read_response.
    destruct (ref_read_csv W _); simpl; discriminate. }
  assert (Hiff : status (get_reference_data W city) = 404 <->
                 exists files,
                   listdir W = Ok files /\
                   file_mapping !! city = None /\
                   Forall (fun g => file_matches city g = false) files).
  { split.
    - destruct (listdir W) as [files|e] eqn:Hdir.
      2:{ unfold get_reference_data. rewrite Hdir. simpl. discriminate. }
      assert (Hchosen : forall name,
                 (if negb (truthy (file_mapping !! city))
                     || negb (bool_decide (default "" (file_mapping !! city) ∈ files))
                  then find_matching_file city files (file_mapping !! city)
                  else file_mapping !! city) = Some name ->
                 truthy (Some name) = true ->
                 status (get_reference_data W city) = 404 -> False).
      { intros name Hc Ht. rewrite (get_reference_data_chosen W city name _ Hdir Hc Ht).
        apply Hread. }
      destruct (file_mapping !! city) as [name|] eqn:Hname.
      + intros H404. exfalso.
        pose proof (file_mapping_truthy _ _ Hname) as Hmapped.
        destruct (decide (name ∈ files)) as [Hin | Hnot].
        * apply (Hchosen name); [|done..].
          change (default "" (Some name)) with name.
          by rewrite Hmapped, bool_decide_eq_true_2.
        * destruct (find_matching_file_inv city files (Some name))
            as [[Hnone Hall] | (pre & f & post & _ & _ & Hf & Hfound)].
          -- apply (Hchosen name); [|done..].
             change (default "" (Some name)) with name.
             by rewrite Hmapped, bool_decide_eq_false_2.
          -- apply (Hchosen f); [|by eapply file_matches_nonempty|done].
             change (default "" (Some name)) with name.
             by rewrite Hmapped, bool_decide_eq_false_2.
      + destruct (find_matching_file_inv city files None)
          as [[Hnone Hall] | (pre & f & post & _ & _ & Hf & Hfound)].
        * intros _. by exists files.
        * intros H404. exfalso.
          by apply (Hchosen f); [|eapply file_matches_nonempty|].
    - intros (files & Hdir & Hname & Hall).
      unfold get_reference_data. rewrite Hdir, Hname. cbn [truthy negb orb].
      destruct (find_matching_file_inv city files None)
        as [[-> _] | (pre & f & post & -> & Hpre & Hf & _)]; [done|].
      apply Forall_app in Hall as [_ Hall]. inversion Hall as [|? ? Hf' _]; subst.
      congruence. }
  split; [exact Hiff|]. split.
  - intros [name Hname] H. apply Hiff in H as (files & _ & Hnone & _). congruence.
  - intros e Hdir. unfold get_reference_data. by rewrite Hdir.
Qed.

Lemma reference_404_iff_witness :
  is_Some (file_mapping !! "Baltimore") /\
  status (get_reference_data Demo.ref_world "Baltimore") <> 404 /\
  status (get_reference_data Demo.ref_world "Atlantis") = 404.
Proof.
  destruct (reference_404_iff Demo.ref_world "Baltimore") as (_ & Hmapped & _).
  destruct (reference_404_iff Demo.ref_world "Atlantis") as ([_ H404] & _ & _).
  assert (H : is_Some (file_mapping !! "Baltimore")) by (by eexists).
  split; [exact H|]. split; [exact (Hmapped H)|].
  apply H404. exists ["la_reference.csv"]. repeat split. by repeat constructor.
Defined.

(** * More on loading and configuration *)

(** X5.  A non-empty result of [load_city_data] is exactly what reading
    the city's mapped file returned: the city is mapped, the file exists
    and the rows are passed on unchanged and in order. *)
Theorem load_city_data_passes_rows (W : World) (city : string) (records : list record) :
  records <> [] ->
  (load_city_data W city = Ok records <->
   exists path,
     city_file_map !! city = Some path /\
     path_exists W path = true /\
     read_csv W path = Ok records).
Proof.
  intros Hne. unfold load_city_data, load_city_data_try. split.
  - destruct (city_file_map !! city) as [path|] eqn:Hpath; [|simpl; congruence].
    rewrite (city_file_map_truthy _ _ Hpath). simpl.
    destruct (path_exists W path) eqn:Hex; [|simpl; congruence]. simpl.
    destruct (read_csv W path) as [rows|e] eqn:Hread; simpl; [|congruence].
    intros [= ->]. by exists path.
  - intros (path & Hpath & Hex & Hread).
    rewrite Hpath, (city_file_map_truthy _ _ Hpath). simpl.
    by rewrite Hex, Hread.
Qed.

Lemma load_city_data_passes_rows_witness :
  Demo.rows 10 <> [] /\
  load_city_data Demo.world "Baltimore" = Ok (Demo.rows 10).
Proof.
  assert (H : Demo.rows 10 <> []) by discriminate.
  split; [exact H|].
  apply (load_city_data_passes_rows Demo.world "Baltimore" (Demo.rows 10) H).
  exists "data/baltimore_reference.csv". repeat split.
Defined.

(** X6.  The three tables agree: a city has a feature list exactly when
    the projection service and the reference-data service have a file for
    it, both services name the same file, and a feature list has 20
    distinct names of which the first is the sequence number. *)
Theorem configuration_tables_agree (city : string) :
  (known_city city <-> get_important_features city <> []) /\
  (known_city city <-> is_Some (city_file_map !! city)) /\
  (known_city city <-> is_Some (file_mapping !! city)) /\
  (forall name, file_mapping !! city = Some name ->
                city_file_map !! city = Some ("data/" +:+ name)) /\
  (known_city city ->
   length (get_important_features city) = 20%nat /\
   NoDup (get_important_features city) /\
   head (get_important_features city) = Some "PTR_SEQUENCE_NUM").
Proof.
  assert (Hunknown : ~ known_city city ->
            get_important_features city = [] /\
            city_file_map !! city = None /\ file_mapping !! city = None).
  { intros H. destruct (unknown_city_unmapped city H) as (Hf & Hc & Hm).
    unfold get_important_features. by rewrite Hf. }
  assert (Hdec : known_city city \/ ~ known_city city).
  { unfold known_city.
    destruct (decide (city = "Baltimore")); [tauto|].
    destruct (decide (city = "Boston")); [tauto|].
    destruct (decide (city = "LA")); tauto. }
  split; [|split; [|split; [|split]]].
  - split; [by intros [-> | [-> | ->]]|].
    intros H. destruct Hdec as [|Hno]; [done|]. by apply Hunknown in Hno as [? _].
  - split; [by intros [-> | [-> | ->]]; eexists|].
    intros [p Hp]. destruct Hdec as [|Hno]; [done|].
    apply Hunknown in Hno as (_ & Hc & _). congruence.
  - split; [by intros [-> | [-> | ->]]; eexists|].
    intros [p Hp]. destruct Hdec as [|Hno]; [done|].
    apply Hunknown in Hno as (_ & _ & Hm). congruence.
  - intros name Hname. destruct Hdec as [[-> | [-> | ->]] | Hno].
    + by injection Hname as <-.
    + by injection Hname as <-.
    + by injection Hname as <-.
    + apply Hunknown in Hno as (_ & _ & Hm). congruence.
  - intros [-> | [-> | ->]]; (split; [reflexivity|]; split; [|reflexivity]);
      apply (bool_decide_unpack _); vm_compute; reflexivity.
Qed.

Lemma configuration_tables_agree_witness :
  known_city "Boston" /\
  length (get_important_features "Boston") = 20%nat /\
  city_file_map !! "Boston" = Some "data/boston_reference.csv".
Proof.
  assert (H : known_city "Boston") by (right; left; reflexivity).
  destruct (configuration_tables_agree "Boston") as (_ & _ & _ & Hfile & Hlist).
  split; [exact H|]. split; [exact (proj1 (Hlist H))|].
  apply (Hfile "boston_reference.csv"). reflexivity.
Defined.

(** * More on matrix assembly *)


Lemma mapM_result_Raise {A B} (f : A -> result B) (l : list A) (e : exn) :
  mapM f l = Raise e -> exists x, x ∈ l /\ f x = Raise e.
Proof.
  induction l as [|x l IH]; [discriminate|].
  rewrite mapM_result_cons. destruct (f x) as [y|e'] eqn:Hx; simpl.
  - destruct (mapM f l) as [k|e'] eqn:Hl; simpl; [discriminate|].
    intros [= ->]. destruct (IH eq_refl) as (x' & Hin & Hx').
    exists x'. split; [by right | done].
  - intros [= ->]. exists x. split; [by left | done].
Qed.

Lemma coerce_Ok_fits (L : Lib) (v : pyvalue) (f : spec_float) :
  coerce L v = Ok f -> fits_float v = true.
Proof.
  unfold coerce. destruct v as [ | b | z | f0 | s | l | d]; simpl; try done.
  by destruct (is_finite (float_of_Z z)).
Qed.

Lemma record_features_Ok_fits (L : Lib) (features : list string) (r : record) row :
  record_features L features r = Ok row -> record_fits features r = true.
Proof.
  intros H. apply mapM_result_Forall2 in H.
  unfold record_fits. apply forallb_forall. intros feature Hin.
  apply list_elem_of_In, list_elem_of_lookup in Hin as [j Hj].
  destruct (Forall2_lookup_l _ _ _ _ _ H Hj) as (f & _ & Hf).
  by eapply coerce_Ok_fits.
Qed.

Lemma target_features_dict (L : Lib) (features : list string) (t : record) :
  target_features L features (PDict t) = record_features L features t.
Proof. reflexivity. Qed.

(** X7.  The comparison rows follow the target in the order of the
    dataset: row [i + 1] of the assembled matrix is the vector of record
    [i], its entry [j] the converted value of feature [j], cleaned by
    [nan_to_num], which leaves a finite value as it is. *)
Theorem assemble_keeps_order (L : Lib) (features : list string)
    (target_record : pyvalue) (city_data : list record) (X : matrix) :
  assemble L features target_record city_data = Ok X ->
  forall i r,
    city_data !! i = Some r ->
    exists row,
      record_features L features r = Ok row /\
      X !! S i = Some (map Np.nan_to_num1 row) /\
      forall j feature,
        features !! j = Some feature ->
        exists f,
          coerce L (default (PInt 0) (r !! feature)) = Ok f /\
          map Np.nan_to_num1 row !! j = Some (Np.nan_to_num1 f) /\
          (is_finite f = true -> Np.nan_to_num1 f = f).
Proof.
  intros H i r Hr.
  apply assemble_Ok in H as (tf & rows & _ & Hrows & ->).
  apply mapM_result_Forall2 in Hrows.
  destruct (Forall2_lookup_l _ _ _ _ _ Hrows Hr) as (row & Hrow & Hfeat).
  exists row. split; [done|]. split.
  - simpl. unfold Np.nan_to_num. by rewrite list_lookup_fmap, Hrow.
  - intros j feature Hj. unfold record_features in Hfeat.
    apply mapM_result_Forall2 in Hfeat.
    destruct (Forall2_lookup_l _ _ _ _ _ Hfeat Hj) as (f & Hf & Hc).
    exists f. split; [done|]. split.
    + by rewrite list_lookup_fmap, Hf.
    + by destruct f as [ | [|] | | ].
Qed.

Lemma assemble_keeps_order_witness :
  exists X row,
    assemble Demo.lib (get_important_features "Baltimore")
      (PDict Demo.example_target) (Demo.rows 10) = Ok X /\
    record_features Demo.lib (get_important_features "Baltimore") (Demo.row 3)
      = Ok row /\
    X !! 4%nat = Some (map Np.nan_to_num1 row).
Proof.
  destruct (assemble_fits Demo.lib (get_important_features "Baltimore")
              Demo.example_target (Demo.rows 10)) as [X HX]; [reflexivity..|].
  destruct (assemble_keeps_order Demo.lib _ _ _ X HX 3%nat (Demo.row 3))
    as (row & Hrow & Hlookup & _); [reflexivity|].
  by exists X, row.
Defined.



(** X9.  Assembly of a target dictionary and a dataset returns a matrix
    exactly when no feature of the target or of a record holds an integer
    beyond float range; otherwise it raises OverflowError, and nothing
    else. *)
Theorem assemble_succeeds_iff (L : Lib) (features : list string) (t : record)
    (city_data : list record) :
  ((exists X, assemble L features (PDict t) city_data = Ok X) <->
   record_fits features t = true /\
   forallb (record_fits features) city_data = true) /\
  (forall e, assemble L features (PDict t) city_data = Raise e ->
             e = OverflowError "int too large to convert to float").
Proof.
  split; [split|].
  - intros [X HX]. apply assemble_Ok in HX as (tf & rows & Htf & Hrows & _).
    rewrite target_features_dict in Htf. split.
    + by eapply record_features_Ok_fits.
    + apply forallb_forall. intros r Hr.
      apply mapM_result_Forall2 in Hrows.
      apply list_elem_of_In, list_elem_of_lookup in Hr as [i Hi].
      destruct (Forall2_lookup_l _ _ _ _ _ Hrows Hi) as (row & _ & Hrow).
      by eapply record_features_Ok_fits.
  - intros [Ht Hdata]. by apply assemble_fits.
  - intros e. unfold assemble. unfold_monad. rewrite target_features_dict.
    assert (Hrec : forall r e', record_features L features r = Raise e' ->
                     e' = OverflowError "int too large to convert to float").
    { intros r e' Hr. apply mapM_result_Raise in Hr as (feature & _ & Hc).
      by apply coerce_raises in Hc as (z & _ & _ & ->). }
    destruct (record_features L features t) as [tf|e'] eqn:Htf.
    + destruct (mapM (record_features L features) city_data) as [rows|e'] eqn:Hrows;
        [discriminate|].
      intros [= <-]. apply mapM_result_Raise in Hrows as (r & _ & Hr). by eapply Hrec.
    + intros [= <-]. by eapply Hrec.
Qed.

Lemma assemble_succeeds_iff_witness :
  record_fits (get_important_features "Baltimore") Demo.example_target = true /\
  forallb (record_fits (get_important_features "Baltimore")) (Demo.rows 10) = true /\
  exists X, assemble Demo.lib (get_important_features "Baltimore")
              (PDict Demo.example_target) (Demo.rows 10) = Ok X.
Proof.
  assert (H1 : record_fits (get_important_features "Baltimore") Demo.example_target
               = true) by reflexivity.
  assert (H2 : forallb (record_fits (get_important_features "Baltimore"))
                 (Demo.rows 10) = true) by reflexivity.
  split; [exact H1|]. split; [exact H2|].
  destruct (assemble_succeeds_iff Demo.lib (get_important_features "Baltimore")
              Demo.example_target (Demo.rows 10)) as [[_ H] _].
  apply H. by split.
Defined.

(** X10.  A feature that neither the target nor any record of the
    dataset carries gives a column of zeros in the assembled matrix. *)
Theorem absent_feature_is_zero_column (L : Lib) (features : list string) (t : record)
    (city_data : list record) (X : matrix) (j : nat) (feature : string) :
  assemble L features (PDict t) city_data = Ok X ->
  features !! j = Some feature ->
  t !! feature = None ->
  Forall (fun r : record => r !! feature = None) city_data ->
  Forall (fun row => row !! j = Some float_zero) X.
Proof.
  intros HX Hj Ht Hdata.
  assert (Hrow : forall (r : record) row,
            r !! feature = None ->
            record_features L features r = Ok row ->
            map Np.nan_to_num1 row !! j = Some float_zero).
  { intros r row Hr Hrow. unfold record_features in Hrow.
    apply mapM_result_Forall2 in Hrow.
    destruct (Forall2_lookup_l _ _ _ _ _ Hrow Hj) as (f & Hf & Hc).
    rewrite Hr in Hc. injection Hc as <-. by rewrite list_lookup_fmap, Hf. }
  apply assemble_Ok in HX as (tf & rows & Htf & Hrows & ->).
  rewrite target_features_dict in Htf. constructor; [by eapply Hrow|].
  apply Forall_forall. intros row Hin. unfold Np.nan_to_num in Hin.
  apply list_elem_of_fmap in Hin as (row0 & -> & Hin).
  apply list_elem_of_lookup in Hin as [i Hi].
  apply mapM_result_Forall2 in Hrows.
  destruct (Forall2_lookup_r _ _ _ _ _ Hrows Hi) as (r & Hr & Hfeat).
  eapply Hrow; [|exact Hfeat].
  rewrite Forall_forall in Hdata. apply Hdata. by eapply list_elem_of_lookup_2.
Qed.

Lemma absent_feature_is_zero_column_witness :
  exists X,
    assemble Demo.lib (get_important_features "Baltimore")
      (PDict Demo.example_target) (Demo.rows 10) = Ok X /\
    get_important_features "Baltimore" !! 2%nat = Some "DAYSQAIT_ALLOC" /\
    Forall (fun row => row !! 2%nat = Some float_zero) X.
Proof.
  destruct (assemble_fits Demo.lib (get_important_features "Baltimore")
              Demo.example_target (Demo.rows 10)) as [X HX]; [reflexivity..|].
  exists X. split; [exact HX|]. split; [reflexivity|].
  apply (absent_feature_is_zero_column Demo.lib _ Demo.example_target (Demo.rows 10)
           X 2 "DAYSQAIT_ALLOC" HX); [reflexivity | reflexivity |].
  apply Forall_forall. intros r Hr. unfold Demo.rows in Hr.
  apply list_elem_of_fmap in Hr as (i & -> & _). reflexivity.
Defined.

(** * More on sampling, projection and the handler *)

(** X11.  Whenever a request calls the projection routine, whether the
    routine then returns or raises, the city is configured, the matrix
    is the sample of the assembled one, which has at least two rows, its
    rows have 20 finite entries, the target's is the first, and the
    perplexity passed with it is [min 30 (rows - 1)]; when
    [np.random.choice] meets its contract the matrix has between 2 and
    5000 rows and the perplexity is at least 1, at most 30 and below the
    number of rows. *)
Theorem projection_input_is_well_formed (L : Lib) (W : World) (city : string)
    (request_json : result pyvalue) (s s' : state) (response : http_response)
    (evs : list event) (p : TSNEParams) (X' : matrix) :
  generate_tsne L W city request_json s = (response, s') ->
  trace s' = (trace s ++ evs)%list ->
  EvTSNE p X' ∈ evs ->
  known_city city /\
  (exists target_record record_id city_data X s1 tf,
      read_request request_json = Ok (target_record, record_id) /\
      load_city_data W city = Ok city_data /\
      assemble L (get_important_features city) target_record city_data = Ok X /\
      sample L X s = (Ok X', s1) /\
      (2 <= length X)%nat /\
      target_features L (get_important_features city) target_record = Ok tf /\
      X' !! 0%nat = Some (map Np.nan_to_num1 tf)) /\
  Forall (fun row => length row = 20%nat /\ Forall (fun f => is_finite f = true) row) X' /\
  (1 <= length X')%nat /\
  p = tsne_params X' /\
  perplexity p = Z.min 30 (Z.of_nat (length X') - 1) /\
  (choice_contract L ->
   (2 <= length X' <= 5000)%nat /\
   1 <= perplexity p <= 30 /\
   perplexity p < Z.of_nat (length X')).
Proof.
  intros Hrun Htrace Hin.
  destruct (generate_tsne_projection_call _ _ _ _ _ _ _ _ _ _ Hrun Htrace Hin)
    as (tr & rid & data & X & s1 & Hreq & _ & _ & Hload & Hne & HX & Hsample & -> & _).
  pose proof (load_city_data_known _ _ _ Hload Hne) as Hcity.
  pose proof (assemble_shape _ _ _ _ _ HX) as [HlenX Hrows].
  pose proof (assemble_Ok _ _ _ _ _ HX) as (tf & rows & Htf & _ & HXeq).
  assert (Hdata : (1 <= length data)%nat) by (destruct data; [done | simpl; lia]).
  assert (H20 : length (get_important_features city) = 20%nat)
    by (by destruct Hcity as [-> | [-> | ->]]).
  assert (Hrow0 : X' !! 0%nat = Some (map Np.nan_to_num1 tf)).
  { rewrite (sample_first_row _ _ _ _ _ Hsample). by rewrite HXeq. }
  split; [exact Hcity|]. split.
  { exists tr, rid, data, X, s1, tf. repeat split; try done. lia. }
  split; [|split; [|split; [reflexivity|split; [reflexivity|]]]].
  - apply Forall_forall. intros row Hrow.
    apply (sample_rows_subset _ _ _ _ _ Hsample) in Hrow.
    rewrite Forall_forall in Hrows. destruct (Hrows row Hrow) as [Hlen Hfin].
    split; [congruence | done].
  - assert (is_Some (X' !! 0%nat)) as H0 by (by rewrite Hrow0).
    apply lookup_lt_is_Some in H0. lia.
  - intros HL. pose proof (sample_length _ _ _ _ _ HL Hsample) as Hlen.
    unfold max_points in Hlen. simpl. lia.
Qed.

Lemma projection_input_is_well_formed_witness :
  exists X',
    trace (snd (generate_tsne Demo.lib_raising Demo.world "Baltimore"
                  (Demo.body_of Demo.example_target) (initial_state 0)))
      = [EvTSNE (tsne_params X') X'] /\
    status (fst (generate_tsne Demo.lib_raising Demo.world "Baltimore"
                   (Demo.body_of Demo.example_target) (initial_state 0))) = 500 /\
    length X' = 11%nat /\
    perplexity (tsne_params X') = 10 /\
    Forall (fun row => length row = 20%nat) X'.
Proof.
  set (M := match assemble Demo.lib_raising (get_important_features "Baltimore")
                    (PDict Demo.example_target) (Demo.rows 10) with
            | Ok X => X
            | Raise _ => []
            end).
  assert (Htrace : trace (snd (generate_tsne Demo.lib_raising Demo.world "Baltimore"
                                 (Demo.body_of Demo.example_target) (initial_state 0)))
                   = (trace (initial_state 0) ++ [EvTSNE (tsne_params M) M])%list)
    by (vm_compute; reflexivity).
  destruct (projection_input_is_well_formed Demo.lib_raising Demo.world "Baltimore"
              (Demo.body_of Demo.example_target) (initial_state 0) _ _
              [EvTSNE (tsne_params M) M] (tsne_params M) M
              (surjective_pairing _) Htrace)
    as (_ & _ & Hrows & _ & _ & Hperp & _); [by apply list_elem_of_singleton|].
  exists M. split; [exact Htrace|]. split; [reflexivity|].
  split; [reflexivity|]. split; [rewrite Hperp; reflexivity|].
  eapply Forall_impl; [exact Hrows|]. by intros row [Hlen _].
Defined.




Lemma compute_tsne_small (L : Lib) W city target_record record_id s city_data :
  load_city_data W city = Ok city_data ->
  (length city_data < 5000)%nat ->
  compute_tsne L W city target_record record_id s =
    match stdout_print L (generating_line L city record_id) with
    | Raise e => (Raise e, s)
    | Ok _ =>
        match city_data with
        | [] => (Ok {| status := 404;
                       body := JError ("No data available for " +:+ city) |}, s)
        | _ :: _ =>
            match assemble L (get_important_features city) target_record city_data with
            | Raise e => (Raise e, s)
            | Ok X =>
                match fit_transform L (tsne_params X) X with
                | Raise e =>
                    (Raise e, {| tsne_cache := tsne_cache s; rng := rng s;
                                 trace := trace s ++ [EvTSNE (tsne_params X) X] |})
                | Ok Y =>
                    (Ok (jsonify (JCoordinates {| coordinates := Y;
                                                  recordId := record_id |})),
                     {| tsne_cache := <[cache_key L city record_id :=
                                          {| coordinates := Y; recordId := record_id |}]>
                                        (tsne_cache s);
                        rng := rng s;
                        trace := trace s ++ [EvTSNE (tsne_params X) X] |})
                end
            end
        end
    end.
Proof.
  intros Hload Hlen. rewrite compute_tsne_run, Hload.
  destruct (stdout_print L _) as [[]|e0]; [|done].
  destruct city_data as [|r0 rest]; [done|].
  destruct (assemble L _ target_record (r0 :: rest)) as [X|e] eqn:HX; [|done].
  pose proof (assemble_shape _ _ _ _ _ HX) as [HlenX _].
  rewrite (sample_below L X s) by (unfold max_points; lia).
  by destruct (fit_transform L (tsne_params X) X).
Qed.

(** X13.  For a dataset of fewer than 5000 rows nothing is drawn: the
    response, the cache and the library calls do not depend on the state
    of the generator, and the request leaves that state as it is. *)
Theorem no_sampling_no_randomness (L : Lib) (W : World) (city : string)
    (request_json : result pyvalue) (s : state) (g : N) (city_data : list record) :
  load_city_data W city = Ok city_data ->
  (length city_data < 5000)%nat ->
  let s_g := {| tsne_cache := tsne_cache s; rng := g; trace := trace s |} in
  fst (generate_tsne L W city request_json s_g)
    = fst (generate_tsne L W city request_json s) /\
  tsne_cache (snd (generate_tsne L W city request_json s_g))
    = tsne_cache (snd (generate_tsne L W city request_json s)) /\
  trace (snd (generate_tsne L W city request_json s_g))
    = trace (snd (generate_tsne L W city request_json s)) /\
  rng (snd (generate_tsne L W city request_json s_g)) = g /\
  rng (snd (generate_tsne L W city request_json s)) = rng s.
Proof.
  intros Hload Hlen s_g.
  destruct (read_request request_json) as [[tr rid]|e] eqn:Hreq.
  2:{ by rewrite !(generate_tsne_bad_request _ _ _ _ _ _ Hreq). }
  destruct (tsne_cache s !! cache_key L city rid) as [stored|] eqn:Hkey.
  { rewrite (generate_tsne_hit _ _ _ _ tr rid stored s Hreq Hkey).
    by rewrite (generate_tsne_hit _ _ _ _ tr rid stored s_g Hreq Hkey). }
  rewrite (generate_tsne_miss _ _ _ _ tr rid s Hreq Hkey).
  rewrite (generate_tsne_miss _ _ _ _ tr rid s_g Hreq Hkey).
  rewrite !(compute_tsne_small _ _ _ _ _ _ _ Hload Hlen).
  destruct (stdout_print L _); [|done].
  destruct city_data as [|r0 rest]; [done|].
  destruct (assemble L _ tr (r0 :: rest)) as [X|e]; [|done].
  by destruct (fit_transform L (tsne_params X) X).
Qed.

Lemma no_sampling_no_randomness_witness :
  load_city_data Demo.world "Baltimore" = Ok (Demo.rows 10) /\
  (length (Demo.rows 10) < 5000)%nat /\
  fst (generate_tsne Demo.lib Demo.world "Baltimore"
         (Demo.body_of Demo.example_target) (initial_state 99))
  = fst (generate_tsne Demo.lib Demo.world "Baltimore"
           (Demo.body_of Demo.example_target) (initial_state 0)).
Proof.
  assert (H1 : load_city_data Demo.world "Baltimore" = Ok (Demo.rows 10))
    by reflexivity.
  assert (H2 : (length (Demo.rows 10) < 5000)%nat) by (vm_compute; lia).
  split; [exact H1|]. split; [exact H2|].
  apply (no_sampling_no_randomness Demo.lib Demo.world "Baltimore"
           (Demo.body_of Demo.example_target) (initial_state 0) 99 _ H1 H2).
Defined.

(** X14.  A request gets past the reading of its body exactly when the
    body is a JSON object whose [targetRecord] is an object.  Every
    other body is answered with status 500 and leaves the state as it
    is: the text of the exception [request.json] raised, or the
    AttributeError naming the type that has no [get]. *)
Theorem malformed_body_is_500 (L : Lib) (W : World) (city : string)
    (request_json : result pyvalue) (s : state) :
  (exists (d t : record),
      request_json = Ok (PDict d) /\
      d !! "targetRecord" = Some (PDict t) /\
      read_request request_json
        = Ok (PDict t, default (PStr "unknown") (t !! "PTR_SEQUENCE_NUM")))
  \/ (exists msg,
        generate_tsne L W city request_json s
          = ({| status := 500; body := JError msg |}, s) /\
        ((exists e, request_json = Raise e /\ msg = exn_str e)
         \/ (exists v, request_json = Ok v /\ type_name v <> "dict" /\
                       msg = "'" +:+ type_name v +:+ "' object has no attribute 'get'")
         \/ (exists (d : record) v,
               request_json = Ok (PDict d) /\
               default PNone (d !! "targetRecord") = v /\
               type_name v <> "dict" /\
               msg = "'" +:+ type_name v +:+ "' object has no attribute 'get'"))).
Proof.
  assert (Hbad : forall e, read_request request_json = Raise e ->
            generate_tsne L W city request_json s
            = ({| status := 500; body := JError (exn_str e) |}, s))
    by (intros e; apply generate_tsne_bad_request).
  destruct request_json as [v|e].
  2:{ right. exists (exn_str e). split; [by apply Hbad | left; by exists e]. }
  destruct v as [ | b | z | f | str | l | d];
    try (right; eexists; split;
         [by apply Hbad | right; left; eexists; by repeat split]).
  destruct (d !! "targetRecord") as [v|] eqn:Hd.
  - destruct v as [ | b | z | f | str | l | t];
      try (right; eexists; split;
           [apply Hbad; unfold read_request; unfold_monad; simpl; by rewrite Hd
           | right; right; eexists d, _; rewrite Hd; by repeat split]).
    left. exists d, t. split; [done|]. split; [done|]. by apply read_request_Ok.
  - right. eexists. split.
    + apply Hbad. unfold read_request. unfold_monad. simpl. by rewrite Hd.
    + right; right. exists d, PNone. rewrite Hd. by repeat split.
Qed.

Lemma malformed_body_is_500_witness :
  generate_tsne Demo.lib Demo.world "Baltimore"
    (Ok (PDict {[ "targetRecord" := PList [PInt 1] ]})) (initial_state 0)
  = ({| status := 500; body := JError "'list' object has no attribute 'get'" |},
     initial_state 0).
Proof.
  destruct (malformed_body_is_500 Demo.lib Demo.world "Baltimore"
              (Ok (PDict {[ "targetRecord" := PList [PInt 1] ]})) (initial_state 0))
    as [(d & t & Hd & Ht & _) | (msg & Hrun & _)].
  - injection Hd as <-. vm_compute in Ht. discriminate.
  - pose proof Hrun as Hmsg. vm_compute in Hmsg. injection Hmsg as <-. exact Hrun.
Defined.

(** X15.  The cache never loses or replaces an entry: a request adds at
    most one, and only with a status 200 response, so after any sequence
    of requests the earlier entries are still there and the cache has
    grown by at most the number of requests. *)
Theorem cache_only_grows (L : Lib) (s : state) :
  (forall W city request_json response s',
      generate_tsne L W city request_json s = (response, s') ->
      tsne_cache s ⊆ tsne_cache s' /\
      (size (tsne_cache s') = size (tsne_cache s)
       \/ (size (tsne_cache s') = S (size (tsne_cache s)) /\ status response = 200))) /\
  (forall qs,
      tsne_cache s ⊆ tsne_cache (serve_all L qs s) /\
      (size (tsne_cache (serve_all L qs s)) <= size (tsne_cache s) + length qs)%nat).
Proof.
  assert (Hstep : forall s0 W city request_json response s',
            generate_tsne L W city request_json s0 = (response, s') ->
            tsne_cache s0 ⊆ tsne_cache s' /\
            (size (tsne_cache s') = size (tsne_cache s0)
             \/ (size (tsne_cache s') = S (size (tsne_cache s0)) /\
                 status response = 200))).
  { intros s0 W city request_json response s' Hrun.
    apply generate_tsne_cache in Hrun
      as [-> | (tr & rid & X & X' & Y & _ & Hmiss & Hcomp & ->)]; [by auto|].
    rewrite (computed_cache _ _ _ _ _ _ _ _ _ _ Hcomp). split.
    - by apply insert_subseteq.
    - right. split; [by apply map_size_insert_None | done]. }
  split; [apply Hstep|].
  intros qs. revert s. induction qs as [|q qs IH]; intros s; simpl.
  - split; [done | lia].
  - destruct (serve L q s) as [response s1] eqn:Hq. simpl.
    destruct (Hstep _ _ _ _ _ _ Hq) as [Hsub Hsize].
    destruct (IH s1) as [Hsub' Hsize']. split.
    + by etrans.
    + destruct Hsize as [-> | [-> _]] in Hsize'; lia.
Qed.

Lemma cache_only_grows_witness :
  let q := {| req_world := Demo.world; req_city := "Baltimore";
              req_json := Demo.body_of Demo.example_target |} in
  let bad := {| req_world := Demo.world; req_city := "Atlantis";
                req_json := Demo.body_of Demo.example_target |} in
  (size (tsne_cache (serve_all Demo.lib [q; bad; q] (initial_state 0))) <= 3)%nat.
Proof.
  intros q bad.
  destruct (cache_only_grows Demo.lib (initial_state 0)) as [_ H].
  destruct (H [q; bad; q]) as [_ Hsize]. exact Hsize.
Defined.

(** X16.  With library routines that meet their contracts, every entry
    the cache can come to hold belongs to a configured city, sits under
    the key made of that city and the text of its identifier, and has
    between 2 and 5000 points of two coordinates. *)
Theorem cached_entries_are_bounded (L : Lib) (s : state) :
  choice_contract L ->
  tsne_shape L ->
  reachable L s ->
  forall key stored,
    tsne_cache s !! key = Some stored ->
    (exists city,
        known_city city /\
        key = city +:+ "_" +:+ py_str (repr L) (recordId stored)) /\
    (2 <= length (coordinates stored) <= 5000)%nat /\
    Forall (fun pt => length pt = 2%nat) (coordinates stored).
Proof.
  intros Hchoice Hshape Hreach.
  induction Hreach as [seed | q s _ IH]; intros key stored Hkey.
  - simpl in Hkey. by rewrite lookup_empty in Hkey.
  - unfold serve in Hkey.
    destruct (generate_tsne L (req_world q) (req_city q) (req_json q) s)
      as [response s'] eqn:Hrun. simpl in Hkey.
    apply generate_tsne_cache in Hrun
      as [Heq | (tr & rid & X & X' & Y & _ & _ & Hcomp & _)].
    { rewrite Heq in Hkey. by apply IH. }
    rewrite (computed_cache _ _ _ _ _ _ _ _ _ _ Hcomp) in Hkey.
    destruct (decide (cache_key L (req_city q) rid = key)) as [<- | Hne].
    2:{ rewrite lookup_insert_ne in Hkey by done. by apply IH. }
    rewrite lookup_insert_eq in Hkey. injection Hkey as <-. simpl.
    destruct Hcomp as (data & s1 & _ & Hload & Hdata & HX & Hsample & HY & _).
    pose proof (assemble_shape _ _ _ _ _ HX) as [HlenX _].
    pose proof (sample_length _ _ _ _ _ Hchoice Hsample) as HlenX'.
    apply Hshape in HY as [HlenY Hpts].
    assert (1 <= length data)%nat by (destruct data; [done | simpl; lia]).
    split; [|split].
    + exists (req_city q). split; [by eapply load_city_data_known | done].
    + unfold max_points in HlenX'. lia.
    + eapply Forall_impl; [exact Hpts|]. simpl. intros pt Hpt. lia.
Qed.

Lemma cached_entries_are_bounded_witness :
  let s := snd (generate_tsne Demo.lib Demo.world "Baltimore"
                  (Demo.body_of Demo.example_target) (initial_state 0)) in
  choice_contract Demo.lib /\ tsne_shape Demo.lib /\ reachable Demo.lib s /\
  exists stored,
    tsne_cache s !! "Baltimore_42" = Some stored /\
    (2 <= length (coordinates stored) <= 5000)%nat.
Proof.
  intros s.
  assert (Hreach : reachable Demo.lib s).
  { apply (reachable_serve Demo.lib
             {| req_world := Demo.world; req_city := "Baltimore";
                req_json := Demo.body_of Demo.example_target |} (initial_state 0)).
    constructor. }
  split; [exact demo_choice_contract|]. split; [exact demo_tsne_shape|].
  split; [exact Hreach|].
  destruct (tsne_cache s !! "Baltimore_42") as [stored|] eqn:Hkey;
    [|vm_compute in Hkey; discriminate].
  exists stored. split; [reflexivity|].
  by destruct (cached_entries_are_bounded Demo.lib s demo_choice_contract
                 demo_tsne_shape Hreach _ _ Hkey) as (_ & Hlen & _).
Defined.

(** X17.  The sequence number is itself the first feature of every
    configured city: for a target record with an integer sequence number
    in float range, entry 0 of row 0 of the assembled matrix is that
    number as a float. *)
Theorem identifier_is_first_feature (L : Lib) (city : string) (t : record) (z : Z)
    (city_data : list record) (X : matrix) :
  known_city city ->
  t !! "PTR_SEQUENCE_NUM" = Some (PInt z) ->
  is_finite (float_of_Z z) = true ->
  assemble L (get_important_features city) (PDict t) city_data = Ok X ->
  exists row, X !! 0%nat = Some row /\ row !! 0%nat = Some (float_of_Z z).
Proof.
  intros Hcity Hid Hfin HX.
  apply assemble_Ok in HX as (tf & rows & Htf & _ & ->).
  exists (map Np.nan_to_num1 tf). split; [done|].
  assert (Hfirst : get_important_features city !! 0%nat = Some "PTR_SEQUENCE_NUM")
    by (by destruct Hcity as [-> | [-> | ->]]).
  unfold target_features in Htf. apply mapM_result_Forall2 in Htf.
  destruct (Forall2_lookup_l _ _ _ _ _ Htf Hfirst) as (f & Hf & Hc).
  simpl in Hc. rewrite Hid in Hc. simpl in Hc. unfold coerce in Hc. simpl in Hc.
  rewrite Hfin in Hc. injection Hc as <-.
  rewrite list_lookup_fmap, Hf. simpl. f_equal.
  by destruct (float_of_Z z) as [ | [|] | | ].
Qed.

Lemma identifier_is_first_feature_witness :
  exists X row,
    assemble Demo.lib (get_important_features "Baltimore")
      (PDict Demo.example_target) (Demo.rows 10) = Ok X /\
    X !! 0%nat = Some row /\ row !! 0%nat = Some (float_of_Z 42).
Proof.
  destruct (assemble_fits Demo.lib (get_important_features "Baltimore")
              Demo.example_target (Demo.rows 10)) as [X HX]; [reflexivity..|].
  destruct (identifier_is_first_feature Demo.lib "Baltimore" Demo.example_target 42
              (Demo.rows 10) X) as (row & H0 & H00);
    [by left | reflexivity | reflexivity | exact HX |].
  by exists X, row.
Defined.
